(** * zalomini-login: the sheet proxy and its polling client

    A shallow embedding of the two programs of the repository that carry
    behaviour:

    - the Express proxy in front of the spreadsheet ([handleGetState],
      [normalizeImageValue], [handleUpdateCell]), module [Backend];
    - the browser side ([sheetRequest], [fetchSheetState], [collectLogs],
      [triggerRun], [submitAnswer] and the [useSheetState] hook), modules
      [SheetClient] and [Polling].

    JavaScript values are modelled as follows.

    - A string is its sequence of UTF-16 code units, [list N].
    - A number is an integer of [Z].  Every number the programs compute with
      is a row number or an array index; fractions, NaN and the rounding of
      integers beyond 2^53 are outside the model.  Where JavaScript produces
      NaN ([parseInt] on a string without digits) the model has [None].
    - A JSON document is a [json]; a value that may be [undefined] is an
      [option json].
    - The [Map] of [collectLogs] is a [gmap Z (list N)].
    - A [TypeError] is a result of its own: reading a property of [null],
      and [String] of an object that hides the inherited [toString]
      ([stringThrows]), end [collectLogs] and [fetchSheetState] with it. *)

From Stdlib Require Import ZArith NArith Ascii String DecimalPos.
From stdpp Require Import base option list gmap sorting.

Local Open Scope Z_scope.
Set Warnings "-register-all".

(** ** JavaScript strings and values *)

Module JS.

Abbreviation jsstring := (list N).

(** A string literal of the source, as code units. *)
Definition lit (s : string) : jsstring :=
  (fun a : ascii => N_of_ascii a) <$> list_ascii_of_string s.

(** WhiteSpace and LineTerminator of ECMAScript: the code units that
    [String.prototype.trim], the class [\s] and [parseInt] skip. *)
Definition isWhiteSpace (c : N) : bool :=
  ((9 <=? c) && (c <=? 13) || (c =? 32) || (c =? 160) || (c =? 5760)
   || (8192 <=? c) && (c <=? 8202) || (c =? 8232) || (c =? 8233)
   || (c =? 8239) || (c =? 8287) || (c =? 12288) || (c =? 65279))%N.

(** LineTerminator: what [.] of a regular expression does not match. *)
Definition isLineTerminator (c : N) : bool :=
  ((c =? 10) || (c =? 13) || (c =? 8232) || (c =? 8233))%N.

Definition isDigit (c : N) : bool := ((48 <=? c) && (c <=? 57))%N.

Fixpoint trimStart (s : jsstring) : jsstring :=
  match s with
  | c :: s' => if isWhiteSpace c then trimStart s' else s
  | [] => []
  end.

Fixpoint trimEnd (s : jsstring) : jsstring :=
  match s with
  | c :: s' =>
      match trimEnd s' with
      | [] => if isWhiteSpace c then [] else [c]
      | r => c :: r
      end
  | [] => []
  end.

(** A string that is empty or starts with something else than white
    space. *)
Definition headOk (s : jsstring) : Prop :=
  match s with
  | c :: _ => isWhiteSpace c = false
  | [] => True
  end.

(** [s.trim()] *)
Definition trim (s : jsstring) : jsstring := trimEnd (trimStart s).

(** [s.trim() !== ""] fails: the string is empty or white space only. *)
Definition isBlank (s : jsstring) : bool := bool_decide (trim s = []).

(** [toUpperCase] on one code unit.  Only the ASCII letters are mapped; the
    case mapping of the other code units is not modelled (none of them maps
    to an ASCII letter of ["RUN"] or of ["=IMAGE("]). *)
Definition toUpperChar (c : N) : N :=
  if ((97 <=? c) && (c <=? 122))%N then (c - 32)%N else c.

Definition toUpperCase (s : jsstring) : jsstring := toUpperChar <$> s.

(** Comparison of two strings up to the case of ASCII letters, unit by
    unit: the reading of "compared case-insensitively". *)
Fixpoint eqIgnoreCase (a b : jsstring) : bool :=
  match a, b with
  | [], [] => true
  | x :: a', y :: b' => (toUpperChar x =? toUpperChar y)%N && eqIgnoreCase a' b'
  | _, _ => false
  end.

(** JSON documents: what [JSON.parse] and [response.json()] produce.  The
    properties of an object are in insertion order, with distinct keys. *)
Inductive json : Type :=
  | JNull
  | JBool (b : bool)
  | JNum (n : Z)
  | JStr (s : jsstring)
  | JArr (items : list json)
  | JObj (props : list (jsstring * json)).

(** [o.key] for one of the keys the programs read ([success], [data],
    [error], [cell], [value], [logs], [log], [row], [index], [text], the
    cell names): an own property of an object, [undefined] on every other
    non-null value, whose prototypes carry none of these names. *)
Fixpoint lookupProp (key : jsstring) (props : list (jsstring * json)) : option json :=
  match props with
  | [] => None
  | (k, v) :: rest => if bool_decide (k = key) then Some v else lookupProp key rest
  end.

Definition getProp (j : json) (key : string) : option json :=
  match j with
  | JObj props => lookupProp (lit key) props
  | _ => None
  end.

(** [key in item] *)
Definition hasProp (j : json) (key : string) : bool :=
  bool_decide (is_Some (getProp j key)).

(** Truthiness of a JSON value. *)
Definition isTruthy (j : json) : bool :=
  match j with
  | JNull => false
  | JBool b => b
  | JNum n => negb (n =? 0)
  | JStr s => bool_decide (s <> [])
  | JArr _ | JObj _ => true
  end.

(** [typeof j === "object"] *)
Definition typeofObject (j : json) : bool :=
  match j with
  | JNull | JArr _ | JObj _ => true
  | _ => false
  end.

(** [a ?? b] *)
Definition nullish (a : option json) (b : json) : json :=
  match a with
  | None | Some JNull => b
  | Some v => v
  end.

(** Decimal digits of a natural number. *)
Fixpoint uintDigits (u : Decimal.uint) : jsstring :=
  match u with
  | Decimal.Nil => []
  | Decimal.D0 u' => 48%N :: uintDigits u'
  | Decimal.D1 u' => 49%N :: uintDigits u'
  | Decimal.D2 u' => 50%N :: uintDigits u'
  | Decimal.D3 u' => 51%N :: uintDigits u'
  | Decimal.D4 u' => 52%N :: uintDigits u'
  | Decimal.D5 u' => 53%N :: uintDigits u'
  | Decimal.D6 u' => 54%N :: uintDigits u'
  | Decimal.D7 u' => 55%N :: uintDigits u'
  | Decimal.D8 u' => 56%N :: uintDigits u'
  | Decimal.D9 u' => 57%N :: uintDigits u'
  end.

(** [String(n)] for an integer [n] below [10^21] in absolute value, where
    JavaScript prints all the digits. *)
Definition numToString (n : Z) : jsstring :=
  match n with
  | Z0 => [48%N]
  | Zpos p => uintDigits (Pos.to_uint p)
  | Zneg p => 45%N :: uintDigits (Pos.to_uint p)
  end.

(** [String(v)] for a JSON value, when the conversion returns
    ([stringThrows] below says when it throws instead); an array is joined
    with commas, its [null] items printing as the empty string. *)
Fixpoint jsonToString (j : json) : jsstring :=
  match j with
  | JNull => lit "null"
  | JBool true => lit "true"
  | JBool false => lit "false"
  | JNum n => numToString n
  | JStr s => s
  | JArr items =>
      (fix join (l : list json) : jsstring :=
         match l with
         | [] => []
         | x :: l' =>
             let sx := match x with JNull => [] | _ => jsonToString x end in
             match l' with
             | [] => sx
             | _ => sx ++ 44%N :: join l'
             end
         end) items
  | JObj _ => lit "[object Object]"
  end.

(** [String(v)] for a value that may be [undefined]. *)
Definition toString (v : option json) : jsstring :=
  match v with
  | None => lit "undefined"
  | Some j => jsonToString j
  end.

(** Whether [String(v)] throws a [TypeError].  The conversion of an object
    calls its [toString], then its [valueOf], and needs a primitive from one
    of them.  An object of a JSON document inherits both from
    [Object.prototype] unless a key of its own hides them, and a value of
    its own is never callable: with a key [toString] of its own the first
    is skipped, and the second, its own or the inherited one (which returns
    the object), gives no primitive.  An array is joined, which converts
    each item that is not [null]. *)
Fixpoint stringThrows (j : json) : bool :=
  match j with
  | JObj props => bool_decide (is_Some (lookupProp (lit "toString") props))
  | JArr items =>
      (fix any (l : list json) : bool :=
         match l with
         | [] => false
         | x :: l' => stringThrows x || any l'
         end) items
  | _ => false
  end.

(** Value of a run of decimal digits read from the left, with what follows
    the run. *)
Fixpoint readDigits (acc : Z) (s : jsstring) : Z * jsstring :=
  match s with
  | c :: s' => if isDigit c then readDigits (10 * acc + (Z.of_N c - 48)) s' else (acc, s)
  | [] => (acc, [])
  end.

(** [parseInt(s, 10)]: leading white space, an optional sign, then the
    longest run of digits; [None] is NaN. *)
Definition parseInt (s : jsstring) : option Z :=
  let s1 := trimStart s in
  let '(neg, s2) :=
    match s1 with
    | 45%N :: r => (true, r)
    | 43%N :: r => (false, r)
    | _ => (false, s1)
    end in
  match s2 with
  | c :: _ =>
      if isDigit c
      then let v := fst (readDigits 0 s2) in Some (if neg then - v else v)
      else None
  | [] => None
  end.

(** [s.startsWith(prefix)] *)
Fixpoint startsWith (prefix s : jsstring) : bool :=
  match prefix, s with
  | [], _ => true
  | x :: prefix', y :: s' => (x =? y)%N && startsWith prefix' s'
  | _ :: _, [] => false
  end.

(** The number that a run of decimal digits denotes, read from the left
    after the digits that gave [acc]. *)
Fixpoint uintValue (acc : Z) (u : Decimal.uint) : Z :=
  match u with
  | Decimal.Nil => acc
  | Decimal.D0 u' => uintValue (10 * acc) u'
  | Decimal.D1 u' => uintValue (10 * acc + 1) u'
  | Decimal.D2 u' => uintValue (10 * acc + 2) u'
  | Decimal.D3 u' => uintValue (10 * acc + 3) u'
  | Decimal.D4 u' => uintValue (10 * acc + 4) u'
  | Decimal.D5 u' => uintValue (10 * acc + 5) u'
  | Decimal.D6 u' => uintValue (10 * acc + 6) u'
  | Decimal.D7 u' => uintValue (10 * acc + 7) u'
  | Decimal.D8 u' => uintValue (10 * acc + 8) u'
  | Decimal.D9 u' => uintValue (10 * acc + 9) u'
  end.

End JS.

(** ** The sheet proxy (Express server) *)

Module Backend.
Import JS.

(** *** The image formula

    [normalizeImageValue] matches the trimmed cell against a regular
    expression with the flag [i], anchored at both ends, made of: the
    literal [=IMAGE(]; white space [\s], any number of times; a double
    quote (code unit 34); capture group 1, one or more code units other
    than the double quote; a double quote; optionally a comma followed by
    any run without line terminator; the closing parenthesis.  The matcher
    below reads the pattern from left to right; no step has a choice, so
    the backtracking search of the regular expression finds the same
    match. *)

(** A literal prefix under the flag [i]. *)
Fixpoint stripPrefixCI (p s : jsstring) : option jsstring :=
  match p, s with
  | [], _ => Some s
  | x :: p', y :: s' =>
      if (toUpperChar y =? toUpperChar x)%N then stripPrefixCI p' s' else None
  | _ :: _, [] => None
  end.

(** The text before the next double quote, and what follows that quote. *)
Fixpoint splitAtQuote (s : jsstring) : option (jsstring * jsstring) :=
  match s with
  | [] => None
  | c :: s' =>
      if (c =? 34)%N then Some ([], s')
      else match splitAtQuote s' with
           | Some (u, r) => Some (c :: u, r)
           | None => None
           end
  end.

(** The end of the pattern: a closing parenthesis at the very end, after
    nothing or after a comma and a run without line terminator. *)
Definition matchTail (t : jsstring) : bool :=
  match t with
  | [41%N] => true
  | 44%N :: w =>
      forallb (fun c => negb (isLineTerminator c)) w
      && bool_decide (last w = Some 41%N)
  | _ => false
  end.

(** The whole pattern; the result is capture group 1. *)
Definition matchImageFormula (s : jsstring) : option jsstring :=
  match stripPrefixCI (lit "=IMAGE(") s with
  | Some s1 =>
      match trimStart s1 with
      | 34%N :: s2 =>
          match splitAtQuote s2 with
          | Some (c :: url, t) => if matchTail t then Some (c :: url) else None
          | _ => None
          end
      | _ => None
      end
  | None => None
  end.

(** The same pattern read as a factorisation of the whole string: the
    prefix, the white space, the quoted capture, the optional arguments and
    the closing parenthesis. *)
Definition ImageFormula (s url : jsstring) : Prop :=
  exists pre ws rest,
    s = pre ++ ws ++ 34%N :: url ++ 34%N :: rest ++ [41%N]
    /\ toUpperCase pre = lit "=IMAGE("
    /\ Forall (fun c => isWhiteSpace c = true) ws
    /\ url <> [] /\ (34%N ∉ url)
    /\ (rest = [] \/ exists w, rest = 44%N :: w /\ Forall (fun c => isLineTerminator c = false) w).

Definition normalizeImageValue (value : option json) : json :=
  match value with
  | None | Some JNull => JStr []
  | Some (JStr s) =>
      let trimmed := trim s in
      match matchImageFormula trimmed with
      | Some url => JStr url
      | None => JStr trimmed
      end
  | Some v => v
  end.

(** *** The state normalizer: the [data] object of [handleGetState] *)

Record LogEntry := { row : Z; text : jsstring }.

Record SheetData := {
  A2 : json; B2 : json; C2 : json; C3 : json; imageUrl : json;
  D2 : json; E2 : json;
  logs : list LogEntry
}.

(** [r?.[i]] for a row that may be [undefined]. *)
Definition cellAt (r : option (list json)) (i : nat) : option json :=
  match r with
  | Some cells => cells !! i
  | None => None
  end.

(** [typeof row[4] === "string" ? row[4] : String(row[4] ?? "")]; the
    cells that the API returns for a range are strings, numbers and
    booleans, which [String] always converts. *)
Definition logText (r : list json) : jsstring :=
  match r !! 4%nat with
  | Some (JStr s) => s
  | c => jsonToString (nullish c (JStr []))
  end.

(** [entry.text && entry.text.trim() !== ""] *)
Definition keepEntry (e : LogEntry) : Prop := text e <> [] /\ trim (text e) <> [].

#[global] Instance keepEntry_dec e : Decision (keepEntry e).
Proof. unfold keepEntry. apply _. Defined.

Definition getStateData (rows : list (list json)) : SheetData :=
  let firstRow := rows !! 0%nat in
  let imageRow := if bool_decide (1 < length rows)%nat then rows !! 1%nat else firstRow in
  let imageValue :=
    match imageRow with
    | Some r => if bool_decide (3 <= length r)%nat then r !! 2%nat else cellAt firstRow 2
    | None => cellAt firstRow 2
    end in
  {| A2 := nullish (cellAt firstRow 0) (JStr []);
     B2 := nullish (cellAt firstRow 1) (JStr []);
     C2 := normalizeImageValue (cellAt firstRow 2);
     C3 := normalizeImageValue imageValue;
     imageUrl := normalizeImageValue imageValue;
     D2 := nullish (cellAt firstRow 3) (JStr []);
     E2 := nullish (cellAt firstRow 4) (JStr []);
     logs :=
       filter keepEntry
         (imap (fun index r => {| row := Z.of_nat index + 2; text := logText r |}) rows) |}.

(** [typeof j === "string"] *)
Definition isString (j : json) : bool :=
  match j with
  | JStr _ => true
  | _ => false
  end.

(** A cell that is a string, [null], or missing from its row. *)
Definition stringOrAbsent (c : option json) : bool :=
  match c with
  | None | Some JNull | Some (JStr _) => true
  | _ => false
  end.

(** *** The handlers

    The libraries the server calls are oracles: what they answer is a
    parameter, and every handler returns, with its HTTP response, the calls
    it made to the spreadsheet service. *)

Inductive thrown := ThrownError (message : jsstring) | ThrownOther.

Record Config := {
  SHEET_ID : option jsstring;              (* process.env.GOOGLE_SHEET_ID *)
  SHEET_NAME : jsstring;                   (* GOOGLE_SHEET_NAME || "Login_NhutPT" *)
  SERVICE_ACCOUNT_B64 : option jsstring    (* GOOGLE_SERVICE_ACCOUNT_B64 *)
}.

Record Sheets := {
  (* JSON.parse(Buffer.from(b64, "base64").toString("utf8")) *)
  parseAccount : jsstring -> thrown + json;
  (* auth.authorize() for a client_email and a private_key: what it throws *)
  authorize : option json -> option json -> option thrown;
  (* spreadsheets.values.get: the [values] of the answer, which may be absent *)
  values_get : jsstring -> jsstring -> thrown + option (list (list json));
  (* spreadsheets.values.update: what it throws *)
  values_update : jsstring -> jsstring -> json -> option thrown
}.

(** The calls that leave the server. *)
Inductive call :=
  | CallAuthorize (client_email private_key : option json)
  | CallGet (spreadsheetId range : jsstring)
  | CallUpdate (spreadsheetId range : jsstring) (value : json).

Record HttpResponse := { status : N; body : json }.

Definition failure (message : jsstring) : json :=
  JObj [(lit "success", JBool false); (lit "error", JStr message)].

(** [error instanceof Error ? error.message : fallback] *)
Definition errorMessage (e : thrown) (fallback : string) : jsstring :=
  match e with
  | ThrownError m => m
  | ThrownOther => lit fallback
  end.

(** [!SHEET_ID]: the variable is unset or empty. *)
Definition sheetId (cfg : Config) : option jsstring :=
  match SHEET_ID cfg with
  | Some (c :: id) => Some (c :: id)
  | _ => None
  end.

Definition decodeServiceAccount (cfg : Config) (api : Sheets) : thrown + json :=
  match SERVICE_ACCOUNT_B64 cfg with
  | Some (c :: b64) => parseAccount api (c :: b64)
  | _ => inl (ThrownError (lit "Missing GOOGLE_SERVICE_ACCOUNT_B64"))
  end.

(** [getSheetsClient]: the calls made, and what is thrown, if anything.
    Reading [svc.client_email] throws when the account is [null]. *)
Definition getSheetsClient (cfg : Config) (api : Sheets) : list call * option thrown :=
  match decodeServiceAccount cfg api with
  | inl e => ([], Some e)
  | inr JNull =>
      ([], Some (ThrownError (lit "Cannot read properties of null (reading 'client_email')")))
  | inr svc =>
      let email := getProp svc "client_email" in
      let key := getProp svc "private_key" in
      ([CallAuthorize email key], authorize api email key)
  end.

(** [req.body || {}] *)
Definition bodyOrEmpty (reqBody : option json) : json :=
  match reqBody with
  | Some j => if isTruthy j then j else JObj []
  | None => JObj []
  end.

(** The payload of a successful get-state. *)
Definition stateResponse (d : SheetData) : json :=
  JObj [(lit "success", JBool true);
        (lit "data",
         JObj [(lit "A2", A2 d); (lit "B2", B2 d); (lit "C2", C2 d);
               (lit "C3", C3 d); (lit "imageUrl", imageUrl d);
               (lit "D2", D2 d); (lit "E2", E2 d);
               (lit "logs",
                JArr ((fun e => JObj [(lit "row", JNum (row e)); (lit "text", JStr (text e))])
                      <$> logs d))])].

Definition handleGetState (cfg : Config) (api : Sheets) : list call * HttpResponse :=
  match sheetId cfg with
  | None => ([], {| status := 500; body := failure (lit "Missing GOOGLE_SHEET_ID on server") |})
  | Some id =>
      match getSheetsClient cfg api with
      | (calls, Some e) =>
          (calls,
           {| status := 500; body := failure (errorMessage e "Unknown error when reading sheet") |})
      | (calls, None) =>
          let range := SHEET_NAME cfg ++ lit "!A2:E" in
          match values_get api id range with
          | inl e =>
              (calls ++ [CallGet id range],
               {| status := 500; body := failure (errorMessage e "Unknown error when reading sheet") |})
          | inr values =>
              (calls ++ [CallGet id range],
               {| status := 200; body := stateResponse (getStateData (default [] values)) |})
          end
      end
  end.

Definition handleUpdateCell (cfg : Config) (api : Sheets) (reqBody : option json)
  : list call * HttpResponse :=
  match sheetId cfg with
  | None => ([], {| status := 500; body := failure (lit "Missing GOOGLE_SHEET_ID on server") |})
  | Some id =>
      let b := bodyOrEmpty reqBody in
      match getProp b "cell" with
      | Some (JStr cell) =>
          match getSheetsClient cfg api with
          | (calls, Some e) =>
              (calls,
               {| status := 500; body := failure (errorMessage e "Unknown error when updating sheet") |})
          | (calls, None) =>
              let range := SHEET_NAME cfg ++ lit "!" ++ cell in
              let value := nullish (getProp b "value") (JStr []) in
              match values_update api id range value with
              | Some e =>
                  (calls ++ [CallUpdate id range value],
                   {| status := 500;
                      body := failure (errorMessage e "Unknown error when updating sheet") |})
              | None =>
                  (calls ++ [CallUpdate id range value],
                   {| status := 200; body := JObj [(lit "success", JBool true)] |})
              end
          end
      | _ => ([], {| status := 400; body := failure (lit "Missing cell field (e.g., 'A2')") |})
      end
  end.

(** The route [POST /sheet]. *)
Definition postSheet (cfg : Config) (api : Sheets) (reqBody : option json)
  : list call * HttpResponse :=
  match reqBody with
  | Some b =>
      match getProp b "action" with
      | Some (JStr a) =>
          if bool_decide (a = lit "get-state") then handleGetState cfg api
          else if bool_decide (a = lit "update-cell") then handleUpdateCell cfg api reqBody
          else ([], {| status := 400; body := failure (lit "Unknown action") |})
      | _ => ([], {| status := 400; body := failure (lit "Unknown action") |})
      end
  | None => ([], {| status := 400; body := failure (lit "Unknown action") |})
  end.

(** The [cell] of the request when it is a string. *)
Definition cellField (reqBody : option json) : option jsstring :=
  match getProp (bodyOrEmpty reqBody) "cell" with
  | Some (JStr cell) => Some cell
  | _ => None
  end.




(** For the examples: a configured server, in front of a service that
    accepts the account and answers the write with [update]. *)
Definition testConfig : Config :=
  {| SHEET_ID := Some (lit "sheet-1"); SHEET_NAME := lit "Login_NhutPT";
     SERVICE_ACCOUNT_B64 := Some (lit "e30=") |}.

Definition testSheets (update : option thrown) : Sheets :=
  {| parseAccount := fun _ =>
       inr (JObj [(lit "client_email", JStr (lit "bot@example.com"));
                  (lit "private_key", JStr (lit "key"))]);
     authorize := fun _ _ => None;
     values_get := fun _ _ => inr None;
     values_update := fun _ _ _ => update |}.

End Backend.

(** ** The sheet client (browser) *)

Module SheetClient.
Import JS.

Definition DEFAULT_POLL_INTERVAL : N := 2000.

(** What a call may throw. *)
Inductive exn :=
  | Error (message : jsstring)     (* new Error(message) *)
  | TypeError                      (* a property of null was read *)
  | FetchFailed.                   (* fetch rejected: no response *)

Inductive outcome (A : Type) :=
  | Returned (a : A)
  | Thrown (e : exn).
Arguments Returned {A} a.
Arguments Thrown {A} e.

Record Request := {
  url : jsstring;
  method : jsstring;
  headers : list (jsstring * jsstring);
  body : json                      (* the document JSON.stringify serialises *)
}.

Record Response := {
  status : N;
  statusText : jsstring;
  parsed : option json             (* response.json(): [None] when it rejects *)
}.

(** [response.ok] *)
Definition ok (r : Response) : bool := ((200 <=? status r) && (status r <=? 299))%N.

(** [import.meta.env.VITE_SHEET_WEBAPP_URL], then [if (!url) throw]. *)
Definition getScriptUrl (env : option jsstring) : outcome jsstring :=
  match env with
  | Some (c :: u) => Returned (c :: u)
  | _ =>
      Thrown (Error (lit
        "Missing environment variable VITE_SHEET_WEBAPP_URL pointing to the sheet API endpoint."))
  end.

(** [o[key] = v] on the property list of an object. *)
Fixpoint setProp (key : jsstring) (v : json) (props : list (jsstring * json))
  : list (jsstring * json) :=
  match props with
  | [] => [(key, v)]
  | (k, w) :: rest =>
      if bool_decide (k = key) then (k, v) :: rest else (k, w) :: setProp key v rest
  end.

(** [{ action, ...payload }] *)
Definition requestBody (action : jsstring) (payload : list (jsstring * json)) : json :=
  JObj (foldl (fun props kv => setProp kv.1 kv.2 props) [(lit "action", JStr action)] payload).

(** The argument of [fetch]. *)
Definition postRequest (u action : jsstring) (payload : list (jsstring * json)) : Request :=
  {| url := u; method := lit "POST";
     headers := [(lit "Content-Type", lit "application/json")];
     body := requestBody action payload |}.

(** [sheetRequest] from the test of [response.ok] on. *)
Definition readResponse (r : Response) : outcome json :=
  if negb (ok r) then
    Thrown (Error (lit "Sheet request failed: " ++ numToString (Z.of_N (status r))
                   ++ lit " " ++ statusText r))
  else
    let json := default (JObj []) (parsed r) in
    match json with
    | JNull => Thrown TypeError
    | _ =>
        match getProp json "success" with
        | Some (JBool false) =>
            Thrown (Error match getProp json "error" with
                          | Some (JStr m) => m
                          | _ => lit "Sheet request returned an error."
                          end)
        | _ => Returned (nullish (getProp json "data") json)
        end
    end.

(** [sheetRequest]: the network is an oracle from the request to the
    response, [None] when [fetch] rejects.  The result comes with the
    requests sent. *)
Definition sheetRequest (net : Request -> option Response) (env : option jsstring)
    (action : jsstring) (payload : list (jsstring * json)) : list Request * outcome json :=
  match getScriptUrl env with
  | Thrown e => ([], Thrown e)
  | Returned u =>
      let req := postRequest u action payload in
      match net req with
      | None => ([req], Thrown FetchFailed)
      | Some r => ([req], readResponse r)
      end
  end.

(** *** collectLogs *)

Record SheetLogEntry := { row : Z; text : jsstring }.

(** [entries] is [Map<number, string>].  Its iteration order is used only
    as the input of the final sort, whose keys are distinct. *)
Definition assign (r : Z) (value : json) (entries : gmap Z jsstring) : gmap Z jsstring :=
  match value with
  | JStr s => if isBlank s then entries else <[r := s]> entries
  | _ => entries
  end.

(** A number as an operand of [||]: [None] stands for the falsy results
    ([false], [0], NaN). *)
Definition truthyNum (n : option Z) : option Z :=
  match n with
  | Some z => if z =? 0 then None else Some z
  | None => None
  end.

Definition orElse (a b : option Z) : option Z :=
  match a with
  | Some z => Some z
  | None => b
  end.

(** The value of the expression [rowCandidate], when its evaluation
    returns. *)
Definition rowCandidate (obj : json) (index : nat) : Z :=
  let i := Z.of_nat index in
  default (i + 2)
    (orElse (truthyNum match getProp obj "row" with Some (JNum n) => Some n | _ => None end)
    (orElse (truthyNum (parseInt (toString (getProp obj "row"))))
    (orElse (truthyNum match getProp obj "index" with Some (JNum n) => Some (n + 2) | _ => None end)
            (truthyNum ((fun n => n + 2) <$>
                          parseInt (jsonToString (nullish (getProp obj "index") (JNum i)))))))).

(** Whether the evaluation of [rowCandidate] throws: its operands are
    evaluated from the left up to the first truthy one, and the second and
    the fourth convert [obj.row] and [obj.index ?? index] with [String]. *)
Definition rowCandidateThrows (obj : json) (index : nat) : bool :=
  let i := Z.of_nat index in
  match truthyNum match getProp obj "row" with Some (JNum n) => Some n | _ => None end with
  | Some _ => false
  | None =>
      match getProp obj "row" with Some v => stringThrows v | None => false end
      || match orElse (truthyNum (parseInt (toString (getProp obj "row"))))
                 (truthyNum match getProp obj "index" with
                            | Some (JNum n) => Some (n + 2)
                            | _ => None
                            end) with
         | Some _ => false
         | None => stringThrows (nullish (getProp obj "index") (JNum i))
         end
  end.

Definition textCandidate (obj : json) : option jsstring :=
  match getProp obj "text" with
  | Some (JStr t) => Some t
  | _ => match getProp obj "value" with
         | Some (JStr v) => Some v
         | _ => None
         end
  end.

(** The body of the callback of [arr.forEach] in [fromArray]; [None] is
    the [TypeError] of [rowCandidate], which is evaluated before the text is
    looked at. *)
Definition fromArrayItem (index : nat) (item : json) (entries : gmap Z jsstring)
  : option (gmap Z jsstring) :=
  match item with
  | JStr _ => Some (assign (Z.of_nat index + 2) item entries)
  | _ =>
      if isTruthy item && typeofObject item
         && (hasProp item "row" || hasProp item "index" || hasProp item "text")
      then if rowCandidateThrows item index then None
           else match textCandidate item with
                | Some (c :: t) =>
                    Some (assign (rowCandidate item index) (JStr (c :: t)) entries)
                | _ => Some entries
                end
      else Some entries
  end.

Fixpoint fromArrayFrom (index : nat) (arr : list json) (entries : gmap Z jsstring)
  : option (gmap Z jsstring) :=
  match arr with
  | [] => Some entries
  | item :: rest =>
      match fromArrayItem index item entries with
      | Some entries' => fromArrayFrom (S index) rest entries'
      | None => None
      end
  end.

Definition fromArray (arr : list json) (entries : gmap Z jsstring)
  : option (gmap Z jsstring) :=
  fromArrayFrom 0 arr entries.

(** [if (Array.isArray(v)) fromArray(v)] *)
Definition fromMaybeArray (v : option json) (entries : gmap Z jsstring)
  : option (gmap Z jsstring) :=
  match v with
  | Some (JArr arr) => fromArray arr entries
  | _ => Some entries
  end.

(** [s.split(/\r?\n/)] *)
Fixpoint splitLines (s : jsstring) : list jsstring :=
  match s with
  | [] => [[]]
  | 10%N :: s' => [] :: splitLines s'
  | 13%N :: 10%N :: s' => [] :: splitLines s'
  | c :: s' =>
      match splitLines s' with
      | l :: ls => (c :: l) :: ls
      | [] => [[c]]
      end
  end.

(** [lines.forEach((line, index) => assign(index + 2, line))] *)
Fixpoint assignLines (index : nat) (lines : list jsstring) (entries : gmap Z jsstring)
  : gmap Z jsstring :=
  match lines with
  | [] => entries
  | line :: rest => assignLines (S index) rest (assign (Z.of_nat index + 2) (JStr line) entries)
  end.

Definition fromLogString (v : option json) (entries : gmap Z jsstring) : gmap Z jsstring :=
  match v with
  | Some (JStr s) =>
      assignLines 0 (filter (fun line => line <> []) (trim <$> splitLines s)) entries
  | _ => entries
  end.

(** [key.match(/^E(\d+)$/i)]: capture group 1. *)
Definition matchEKey (key : jsstring) : option jsstring :=
  match key with
  | c :: d :: ds =>
      if (toUpperChar c =? 69)%N && forallb isDigit (d :: ds) then Some (d :: ds) else None
  | _ => None
  end.

(** [Object.entries(raw)], as far as the keys [E<N>] go: the properties of
    an object in their order (the integer keys that JavaScript moves to the
    front, and the index keys of an array or string, never match). *)
Definition objectEntries (raw : json) : list (jsstring * json) :=
  match raw with
  | JObj props => props
  | _ => []
  end.

Fixpoint fromKeys (props : list (jsstring * json)) (entries : gmap Z jsstring)
  : gmap Z jsstring :=
  match props with
  | [] => entries
  | (key, value) :: rest =>
      fromKeys rest
        match matchEKey key with
        | Some digits =>
            match parseInt digits with
            | Some r => assign r value entries
            | None => entries
            end
        | None => entries
        end
  end.

(** The order of the final sort: [(a, b) => a[0] - b[0]]. *)
Definition rowLe (a b : Z * jsstring) : Prop := a.1 <= b.1.

#[global] Instance rowLe_dec a b : Decision (rowLe a b).
Proof. unfold rowLe. apply _. Defined.

(** [collectLogs]; [None] is a [TypeError]: reading [raw.logs] throws when
    [raw] is [null], and so does an item of [raw.logs] or [raw.log] whose
    [rowCandidate] throws. *)
Definition collectLogs (raw : json) : option (list SheetLogEntry) :=
  match raw with
  | JNull => None
  | _ =>
      match fromMaybeArray (getProp raw "logs") ∅ with
      | None => None
      | Some fromLogs =>
          match fromMaybeArray (getProp raw "log") fromLogs with
          | None => None
          | Some fromLog =>
              let entries :=
                fromKeys (objectEntries raw) (fromLogString (getProp raw "log") fromLog) in
              Some ((fun e : Z * jsstring => {| row := e.1; text := e.2 |})
                      <$> merge_sort rowLe (map_to_list entries))
          end
      end
  end.

(** *** The calls of [assign]

    The sequence of the calls [assign(row, value)] that [collectLogs] makes
    on [raw], in the order it makes them.  It is defined on its own, from
    the same four passes, to say which writes happen and which of them is
    the last one for a row. *)

Definition itemCalls (index : nat) (item : json) : list (Z * json) :=
  match item with
  | JStr _ => [(Z.of_nat index + 2, item)]
  | _ =>
      if isTruthy item && typeofObject item
         && (hasProp item "row" || hasProp item "index" || hasProp item "text")
      then match textCandidate item with
           | Some (c :: t) => [(rowCandidate item index, JStr (c :: t))]
           | _ => []
           end
      else []
  end.

Fixpoint arrayCallsFrom (index : nat) (arr : list json) : list (Z * json) :=
  match arr with
  | [] => []
  | item :: rest => itemCalls index item ++ arrayCallsFrom (S index) rest
  end.

Definition maybeArrayCalls (v : option json) : list (Z * json) :=
  match v with
  | Some (JArr arr) => arrayCallsFrom 0 arr
  | _ => []
  end.

Fixpoint lineCalls (index : nat) (lines : list jsstring) : list (Z * json) :=
  match lines with
  | [] => []
  | line :: rest => (Z.of_nat index + 2, JStr line) :: lineCalls (S index) rest
  end.

Definition logStringCalls (v : option json) : list (Z * json) :=
  match v with
  | Some (JStr s) => lineCalls 0 (filter (fun line => line <> []) (trim <$> splitLines s))
  | _ => []
  end.

Fixpoint keyCalls (props : list (jsstring * json)) : list (Z * json) :=
  match props with
  | [] => []
  | (key, value) :: rest =>
      match matchEKey key with
      | Some digits =>
          match parseInt digits with
          | Some r => [(r, value)]
          | None => []
          end
      | None => []
      end ++ keyCalls rest
  end.

Definition assignCalls (raw : json) : list (Z * json) :=
  maybeArrayCalls (getProp raw "logs")
  ++ maybeArrayCalls (getProp raw "log")
  ++ logStringCalls (getProp raw "log")
  ++ keyCalls (objectEntries raw).

(** *** The items that throw

    Whether the passes over [raw.logs] and [raw.log] reach an item whose
    [rowCandidate] throws: an object with one of the keys [row], [index]
    and [text], whatever its text. *)

Definition itemThrows (index : nat) (item : json) : bool :=
  match item with
  | JObj _ =>
      (hasProp item "row" || hasProp item "index" || hasProp item "text")
      && rowCandidateThrows item index
  | _ => false
  end.

Fixpoint arrayThrowsFrom (index : nat) (arr : list json) : bool :=
  match arr with
  | [] => false
  | item :: rest => itemThrows index item || arrayThrowsFrom (S index) rest
  end.

Definition maybeArrayThrows (v : option json) : bool :=
  match v with
  | Some (JArr arr) => arrayThrowsFrom 0 arr
  | _ => false
  end.

Definition logsThrow (raw : json) : bool :=
  maybeArrayThrows (getProp raw "logs") || maybeArrayThrows (getProp raw "log").

(** The text that a call writes for the row [r], when it writes one: the
    value is a string that is not blank, and the row is [r]. *)
Definition writes (r : Z) (c : Z * json) : option jsstring :=
  match c.2 with
  | JStr s => if isBlank s then None else if bool_decide (c.1 = r) then Some s else None
  | _ => None
  end.

(** The last text written for the row [r] by a sequence of calls. *)
Definition lastWritten (r : Z) (calls : list (Z * json)) : option jsstring :=
  last (omap (writes r) calls).

(** *** fetchSheetState and the two writes *)

Record SheetState := {
  action : option jsstring;
  time : option jsstring;
  imageUrl : option jsstring;
  answer : option jsstring;
  log : option jsstring;
  logs : list SheetLogEntry
}.

Definition getString (value : option json) : option jsstring :=
  match value with
  | Some (JStr s) => Some s
  | _ => None
  end.

(** [a ?? b] on the results of [getString]. *)
Definition orString (a b : option jsstring) : option jsstring :=
  match a with
  | Some s => Some s
  | None => b
  end.

Definition fetchSheetState (net : Request -> option Response) (env : option jsstring)
  : list Request * outcome SheetState :=
  match sheetRequest net env (lit "get-state") [] with
  | (sent, Thrown e) => (sent, Thrown e)
  | (sent, Returned data) =>
      match collectLogs data with
      | None => (sent, Thrown TypeError)
      | Some ls =>
          (sent,
           Returned
             {| action := orString (getString (getProp data "action")) (getString (getProp data "A2"));
                time := orString (getString (getProp data "time")) (getString (getProp data "B2"));
                imageUrl :=
                  orString (getString (getProp data "imageUrl"))
                    (orString (getString (getProp data "C3")) (getString (getProp data "C2")));
                answer := orString (getString (getProp data "answer")) (getString (getProp data "D2"));
                log := orString (getString (getProp data "log")) (getString (getProp data "E2"));
                logs := ls |})
      end
  end.

Definition triggerRun (net : Request -> option Response) (env : option jsstring)
  : list Request * outcome unit :=
  match sheetRequest net env (lit "update-cell")
          [(lit "cell", JStr (lit "A2")); (lit "value", JStr (lit "RUN"))] with
  | (sent, Thrown e) => (sent, Thrown e)
  | (sent, Returned _) => (sent, Returned tt)
  end.

Definition submitAnswer (net : Request -> option Response) (env : option jsstring)
    (answer : jsstring) : list Request * outcome unit :=
  match sheetRequest net env (lit "update-cell")
          [(lit "cell", JStr (lit "D2")); (lit "value", JStr answer)] with
  | (sent, Thrown e) => (sent, Thrown e)
  | (sent, Returned _) => (sent, Returned tt)
  end.

End SheetClient.

(** ** The polling controller: the hook [useSheetState] *)

Module Polling.
Import JS SheetClient.

(** The state cells and the ref of the hook, with the part of the window
    the hook acts on: the interval timers that are active (handle and
    delay), the next handle [setInterval] hands out, and the number of
    fetches started.  A handle is a positive integer, hence truthy. *)
Record Controller := {
  state : option SheetState;
  loading : bool;
  error : option exn;
  polling : bool;
  timerRef : option positive;
  intervals : gmap positive N;
  nextHandle : positive;
  fetches : nat
}.

Definition setState (v : option SheetState) (w : Controller) : Controller :=
  {| state := v; loading := loading w; error := error w; polling := polling w;
     timerRef := timerRef w; intervals := intervals w; nextHandle := nextHandle w;
     fetches := fetches w |}.

Definition setLoading (v : bool) (w : Controller) : Controller :=
  {| state := state w; loading := v; error := error w; polling := polling w;
     timerRef := timerRef w; intervals := intervals w; nextHandle := nextHandle w;
     fetches := fetches w |}.

Definition setError (v : option exn) (w : Controller) : Controller :=
  {| state := state w; loading := loading w; error := v; polling := polling w;
     timerRef := timerRef w; intervals := intervals w; nextHandle := nextHandle w;
     fetches := fetches w |}.

Definition setPolling (v : bool) (w : Controller) : Controller :=
  {| state := state w; loading := loading w; error := error w; polling := v;
     timerRef := timerRef w; intervals := intervals w; nextHandle := nextHandle w;
     fetches := fetches w |}.

Definition setTimerRef (v : option positive) (w : Controller) : Controller :=
  {| state := state w; loading := loading w; error := error w; polling := polling w;
     timerRef := v; intervals := intervals w; nextHandle := nextHandle w;
     fetches := fetches w |}.

(** [window.clearInterval(h)] *)
Definition clearInterval (h : positive) (w : Controller) : Controller :=
  {| state := state w; loading := loading w; error := error w; polling := polling w;
     timerRef := timerRef w; intervals := delete h (intervals w);
     nextHandle := nextHandle w; fetches := fetches w |}.

(** [window.setInterval(callback, delay)]: the handle, and the window with
    the new timer. *)
Definition setInterval (delay : N) (w : Controller) : positive * Controller :=
  (nextHandle w,
   {| state := state w; loading := loading w; error := error w; polling := polling w;
      timerRef := timerRef w; intervals := <[nextHandle w := delay]> (intervals w);
      nextHandle := Pos.succ (nextHandle w); fetches := fetches w |}).

(** The call of [fetchSheetState] goes out. *)
Definition startFetch (w : Controller) : Controller :=
  {| state := state w; loading := loading w; error := error w; polling := polling w;
     timerRef := timerRef w; intervals := intervals w; nextHandle := nextHandle w;
     fetches := S (fetches w) |}.

Definition stopPolling (w : Controller) : Controller :=
  setPolling false
    match timerRef w with
    | Some h => setTimerRef None (clearInterval h w)
    | None => w
    end.

(** [load] up to its [await]. *)
Definition loadBegin (w : Controller) : Controller :=
  startFetch (setError None (setLoading true w)).

(** [(sheetState.action ?? "").trim().toUpperCase() !== "RUN"] *)
Definition notRunning (sheetState : SheetState) : bool :=
  bool_decide (toUpperCase (trim (default [] (action sheetState))) <> lit "RUN").

(** [load] from the completion of the fetch on. *)
Definition loadEnd (result : outcome SheetState) (w : Controller) : Controller :=
  setLoading false
    match result with
    | Returned sheetState =>
        let w1 := setState (Some sheetState) w in
        if notRunning sheetState then stopPolling w1 else w1
    | Thrown err => stopPolling (setError (Some err) w)
    end.

Definition startPolling (pollInterval : N) (w : Controller) : Controller :=
  let w1 := stopPolling w in
  let w2 := setPolling true w1 in
  let w3 := loadBegin w2 in
  let '(h, w4) := setInterval pollInterval w3 in
  setTimerRef (Some h) w4.

(** The hook when the screen mounts. *)
Definition mount : Controller :=
  {| state := None; loading := false; error := None; polling := false;
     timerRef := None; intervals := ∅; nextHandle := 1%positive; fetches := 0 |}.

(** What happens to a mounted hook. *)
Inductive event :=
  | StartPolling                            (* the screen calls startPolling *)
  | StopPolling                             (* stopPolling, also the unmount *)
  | Reload                                  (* the screen calls reload *)
  | Tick (h : positive)                     (* the timer [h] fires *)
  | Completed (result : outcome SheetState) (* a fetch completes *).

(** [useSheetState(pollInterval = DEFAULT_POLL_INTERVAL)] *)
Definition pollIntervalOf (arg : option N) : N := default DEFAULT_POLL_INTERVAL arg.

Definition step (arg : option N) (w : Controller) (e : event) : Controller :=
  match e with
  | StartPolling => startPolling (pollIntervalOf arg) w
  | StopPolling => stopPolling w
  | Reload => loadBegin w
  | Tick h => if bool_decide (is_Some (intervals w !! h)) then loadBegin w else w
  | Completed result => loadEnd result w
  end.

(** The hook after a history of events. *)
Definition run (arg : option N) (history : list event) : Controller :=
  foldl (step arg) mount history.

(** The timers of the window are the one the ref holds, if any, with the
    delay of the hook. *)
Definition singleTimer (delay : N) (w : Controller) : Prop :=
  intervals w = from_option (fun h => {[h := delay]}) ∅ (timerRef w).

(** The flag and the ref go together, and the handle of the ref is one that
    [setInterval] has handed out. *)
Definition refInvariant (w : Controller) : Prop :=
  polling w = bool_decide (is_Some (timerRef w))
  /\ forall h, timerRef w = Some h -> (h < nextHandle w)%positive.

(** The two states of the controller. *)
Inductive mode := Idle | Polling.

Definition modeOf (w : Controller) : mode := if polling w then Polling else Idle.

End Polling.

(** ** The client in front of the proxy *)

Module Wire.
Import JS.

(** The network when the endpoint is the route [POST /sheet] of the proxy:
    [express.json()] parses the body the client serialised, the route
    answers, and the client receives the status, the reason phrase that the
    HTTP layer gives the status, and the JSON body. *)
Definition proxy (cfg : Backend.Config) (api : Backend.Sheets) (reason : N -> jsstring)
    (req : SheetClient.Request) : option SheetClient.Response :=
  let out := Backend.postSheet cfg api (Some (SheetClient.body req)) in
  Some {| SheetClient.status := Backend.status out.2;
          SheetClient.statusText := reason (Backend.status out.2);
          SheetClient.parsed := Some (Backend.body out.2) |}.

(** A log entry of the proxy as the client types it. *)
Definition clientEntry (e : Backend.LogEntry) : SheetClient.SheetLogEntry :=
  {| SheetClient.row := Backend.row e; SheetClient.text := Backend.text e |}.

(** The [data] object in the payload of a successful get-state. *)
Definition stateData (d : Backend.SheetData) : json :=
  JObj [(lit "A2", Backend.A2 d); (lit "B2", Backend.B2 d); (lit "C2", Backend.C2 d);
        (lit "C3", Backend.C3 d); (lit "imageUrl", Backend.imageUrl d);
        (lit "D2", Backend.D2 d); (lit "E2", Backend.E2 d);
        (lit "logs",
         JArr ((fun e => JObj [(lit "row", JNum (Backend.row e));
                               (lit "text", JStr (Backend.text e))])
               <$> Backend.logs d))].

(** A log entry as a call of [assign]. *)
Definition entryCall (e : SheetClient.SheetLogEntry) : Z * json :=
  (SheetClient.row e, JStr (SheetClient.text e)).

End Wire.

(** ** The screen: the page component *)

Module Page.
Import JS SheetClient Polling.

Inductive Feedback :=
  | Success (message : jsstring)
  | Failure (err : exn).           (* the message of the exception *)

(** The state cells of the page, with the hook it uses. *)
Record Screen := {
  answer : jsstring;
  submitting : bool;
  running : bool;
  feedback : option Feedback;
  shownLogs : list SheetLogEntry;   (* the state cell [logs] *)
  hook : Controller
}.

Definition setAnswer (v : jsstring) (p : Screen) : Screen :=
  {| answer := v; submitting := submitting p; running := running p;
     feedback := feedback p; shownLogs := shownLogs p; hook := hook p |}.

Definition setSubmitting (v : bool) (p : Screen) : Screen :=
  {| answer := answer p; submitting := v; running := running p;
     feedback := feedback p; shownLogs := shownLogs p; hook := hook p |}.

Definition setRunning (v : bool) (p : Screen) : Screen :=
  {| answer := answer p; submitting := submitting p; running := v;
     feedback := feedback p; shownLogs := shownLogs p; hook := hook p |}.

Definition setFeedback (v : option Feedback) (p : Screen) : Screen :=
  {| answer := answer p; submitting := submitting p; running := running p;
     feedback := v; shownLogs := shownLogs p; hook := hook p |}.

(** An operation of the hook, followed by the effect
    [if (state) setLogs(state.logs ?? [])]. *)
Definition withHook (f : Controller -> Controller) (p : Screen) : Screen :=
  let w := f (hook p) in
  {| answer := answer p; submitting := submitting p; running := running p;
     feedback := feedback p;
     shownLogs := match state w with
                  | Some st => logs st
                  | None => shownLogs p
                  end;
     hook := w |}.

(** The memo [imageSource] for [state?.imageUrl]. *)
Definition imageSource (source : option jsstring) : option jsstring :=
  match source with
  | None | Some [] => None
  | Some src =>
      if startsWith (lit "http://") src || startsWith (lit "https://") src
         || startsWith (lit "data:") src
      then Some src
      else Some (lit "data:image/png;base64," ++ src)
  end.

(** [value.replace(/\D/g, "").slice(0, 3)] *)
Definition digitsOnly (value : jsstring) : jsstring :=
  take 3 (filter (fun c => isDigit c = true) value).

Definition handleAnswerChange (value : jsstring) (p : Screen) : Screen :=
  setAnswer (digitsOnly value) p.

(** [submitting || answer.length !== 3] *)
Definition isSubmitDisabled (p : Screen) : bool :=
  submitting p || negb (length (answer p) =? 3)%nat.

(** [handleSubmit] up to its first [await]: the page, and the argument of
    [submitAnswer] when the call is made. *)
Definition handleSubmitBegin (p : Screen) : Screen * option jsstring :=
  let trimmed := trim (answer p) in
  if negb (length trimmed =? 3)%nat then
    (setFeedback (Some (Failure (Error (lit "Please enter exactly 3 digits before sending.")))) p,
     None)
  else (setSubmitting true (setFeedback None p), Some trimmed).

(** [handleSubmit] when [submitAnswer] settles: on success the answer is
    emptied and [reload] starts; on failure the handler ends. *)
Definition handleSubmitSettled (out : outcome unit) (p : Screen) : Screen :=
  match out with
  | Returned _ =>
      withHook loadBegin
        (setAnswer [] (setFeedback (Some (Success (lit "Captcha code saved to cell D2."))) p))
  | Thrown err => setSubmitting false (setFeedback (Some (Failure err)) p)
  end.

(** [handleSubmit] when [reload] completes. *)
Definition handleSubmitReloaded (result : outcome SheetState) (p : Screen) : Screen :=
  setSubmitting false (withHook (loadEnd result) p).

(** [handleRun] up to its [await]. *)
Definition handleRunBegin (p : Screen) : Screen :=
  setRunning true (setFeedback None p).

(** [handleRun] when [triggerRun] settles.  The page calls
    [useSheetState(2000)]. *)
Definition handleRunSettled (out : outcome unit) (p : Screen) : Screen :=
  setRunning false
    match out with
    | Returned _ =>
        withHook (startPolling (pollIntervalOf (Some 2000%N)))
          (setFeedback
             (Some (Success (lit "Set A2 = RUN. Please check the Google Sheet."))) p)
    | Thrown err => withHook stopPolling (setFeedback (Some (Failure err)) p)
    end.

(** The page when it mounts. *)
Definition mounted : Screen :=
  {| answer := []; submitting := false; running := false; feedback := None;
     shownLogs := []; hook := mount |}.

(** What happens to a mounted page.  A disabled button takes no click. *)
Inductive event :=
  | Change (value : jsstring)                  (* the input changes *)
  | ClickSend
  | SubmitSettled (out : outcome unit)
  | SubmitReloaded (result : outcome SheetState)
  | ClickRun
  | RunSettled (out : outcome unit)
  | OfHook (e : Polling.event).                (* a timer fires, a fetch completes *)

Definition step (p : Screen) (e : event) : Screen :=
  match e with
  | Change value => handleAnswerChange value p
  | ClickSend => if isSubmitDisabled p then p else (handleSubmitBegin p).1
  | SubmitSettled out => handleSubmitSettled out p
  | SubmitReloaded result => handleSubmitReloaded result p
  | ClickRun => if running p then p else handleRunBegin p
  | RunSettled out => handleRunSettled out p
  | OfHook e => withHook (fun w => Polling.step (Some 2000%N) w e) p
  end.

Definition run (history : list event) : Screen := foldl step mounted history.

(** The answers that the clicks on Send of a history passed to
    [submitAnswer], in order. *)
Fixpoint submitted (p : Screen) (history : list event) : list jsstring :=
  match history with
  | [] => []
  | e :: rest =>
      match e with
      | ClickSend =>
          if isSubmitDisabled p then []
          else match (handleSubmitBegin p).2 with
               | Some a => [a]
               | None => []
               end
      | _ => []
      end ++ submitted (step p e) rest
  end.

(** The answer of the page is made of at most three digits. *)
Definition answerOk (p : Screen) : Prop :=
  Forall (fun c => isDigit c = true) (answer p) /\ (length (answer p) <= 3)%nat.

End Page.

(** * Properties *)

Import JS.

(** Case analysis on a code unit, down to its six low bits: enough to
    decide a [match] of the code unit against the literals of a pattern. *)
Ltac code_unit_cases c tac :=
  destruct c as [|c]; [tac|]; do 6 (try (destruct c as [c|c|]; tac)).

(** Case analysis on the ref of the hook, remembered for the fields that
    simplification brings back. *)
Ltac by_timerRef w :=
  let E := fresh "E" in
  destruct (Polling.timerRef w) eqn:E; simpl; rewrite ?E; try done.

(** ** Strings *)

Section StringFacts.

Lemma trimStart_headOk s : headOk (trimStart s).
Proof.
  induction s as [|c s IH]; simpl; [done|].
  destruct (isWhiteSpace c) eqn:E; [exact IH | exact E].
Qed.

Lemma trimStart_id s : headOk s -> trimStart s = s.
Proof. destruct s as [|c s]; simpl; [done|]. by intros ->. Qed.

Lemma trimEnd_headOk s : headOk s -> headOk (trimEnd s).
Proof.
  destruct s as [|c s]; simpl; [done|]. intros E.
  destruct (trimEnd s); simpl; by rewrite ?E.
Qed.

Lemma trimEnd_idem s : trimEnd (trimEnd s) = trimEnd s.
Proof.
  induction s as [|c s IH]; simpl; [done|].
  destruct (trimEnd s) as [|d r] eqn:E.
  - destruct (isWhiteSpace c) eqn:W; simpl; by rewrite ?W.
  - change (trimEnd (c :: d :: r)) with
      (match trimEnd (d :: r) with
       | [] => if isWhiteSpace c then [] else [c]
       | x :: l => c :: x :: l
       end).
    by rewrite IH.
Qed.

Lemma trim_idem s : trim (trim s) = trim s.
Proof.
  unfold trim.
  rewrite (trimStart_id (trimEnd (trimStart s))).
  - apply trimEnd_idem.
  - apply trimEnd_headOk, trimStart_headOk.
Qed.

Lemma trimStart_subseteq s : trimStart s ⊆ s.
Proof.
  induction s as [|c s IH]; simpl; [done|].
  destruct (isWhiteSpace c); [|done]. by apply list_subseteq_cons.
Qed.

Lemma trimEnd_subseteq s : trimEnd s ⊆ s.
Proof.
  induction s as [|c s IH]; simpl; [done|].
  destruct (trimEnd s) as [|d r]; [destruct (isWhiteSpace c)|].
  - by apply list_subseteq_cons.
  - apply list_subseteq_skip, list_subseteq_nil.
  - by apply list_subseteq_skip.
Qed.

Lemma trim_subseteq s : trim s ⊆ s.
Proof.
  unfold trim. etrans; [apply trimEnd_subseteq | apply trimStart_subseteq].
Qed.

Lemma trimStart_app_ws ws s :
  Forall (fun c => isWhiteSpace c = true) ws -> trimStart (ws ++ s) = trimStart s.
Proof. induction 1 as [|c ws E _ IH]; simpl; [done|]. by rewrite E. Qed.

Lemma trimStart_split s :
  exists ws, s = ws ++ trimStart s /\ Forall (fun c => isWhiteSpace c = true) ws.
Proof.
  induction s as [|c s (ws & E & F)]; simpl.
  - by exists [].
  - destruct (isWhiteSpace c) eqn:W.
    + exists (c :: ws). split; [by rewrite <- app_comm_cons, <- E | by constructor].
    + by exists [].
Qed.

(** Comparing the upper-cased strings is comparing without regard to
    case. *)
Lemma eqIgnoreCase_toUpperCase a b :
  eqIgnoreCase a b = true <-> toUpperCase a = toUpperCase b.
Proof.
  revert b. induction a as [|x a IH]; intros [|y b]; simpl; try done.
  rewrite andb_true_iff, N.eqb_eq, IH. unfold toUpperCase; simpl.
  split; [intros [-> ->]; done | intros [= -> ->]; done].
Qed.

Lemma toUpperCase_RUN : toUpperCase (lit "RUN") = lit "RUN".
Proof. reflexivity. Qed.

End StringFacts.

(** ** The image formula *)

Section ImageFormulaFacts.
Import Backend.

Lemma stripPrefixCI_Some p s s1 :
  stripPrefixCI p s = Some s1 <->
  exists pre, s = pre ++ s1 /\ toUpperCase pre = toUpperCase p.
Proof.
  revert s. induction p as [|x p IH]; intros s; simpl.
  - split.
    + intros [= ->]. by exists [].
    + intros ([|] & -> & E); [done | discriminate E].
  - destruct s as [|y s].
    + split; [done|]. intros ([|] & E1 & E2); discriminate.
    + destruct (N.eqb_spec (toUpperChar y) (toUpperChar x)) as [E|E].
      * rewrite IH. split.
        -- intros (pre & -> & Hp). exists (y :: pre). split; [done|].
           unfold toUpperCase in *. rewrite !fmap_cons. by rewrite E, Hp.
        -- intros ([|z pre] & E1 & E2); [discriminate E2|].
           injection E1 as -> ->. injection E2 as _ E2. by exists pre.
      * split; [done|]. intros ([|z pre] & E1 & E2); [discriminate E2|].
        injection E1 as -> ->. injection E2 as E2 _. done.
Qed.

Lemma splitAtQuote_Some s u t :
  splitAtQuote s = Some (u, t) <-> s = u ++ 34%N :: t /\ 34%N ∉ u.
Proof.
  revert u. induction s as [|c s IH]; intros u; simpl.
  - split; [done|]. intros [E _]. by destruct u.
  - destruct (N.eqb_spec c 34) as [->|Hc].
    + split.
      * intros [= <- <-]. split; [done | apply not_elem_of_nil].
      * intros [E Hu]. destruct u as [|d u]; [by injection E as -> |].
        injection E as <- _. exfalso. apply Hu. left.
    + destruct (splitAtQuote s) as [[u' r]|] eqn:Es in |- *.
      * split.
        -- intros [= <- <-]. apply IH in Es as [-> Hu']. split; [done|].
           rewrite not_elem_of_cons. split; [congruence | done].
        -- intros [E Hu]. destruct u as [|d u]; [injection E as E _; done|].
           injection E as <- E. apply not_elem_of_cons in Hu as [_ Hu].
           assert (splitAtQuote s = Some (u, t)) as E' by (apply IH; done).
           rewrite Es in E'. by injection E' as -> ->.
      * split; [done|]. intros [E Hu]. destruct u as [|d u]; [injection E as E _; done|].
        injection E as <- E. apply not_elem_of_cons in Hu as [_ Hu].
        assert (splitAtQuote s = Some (u, t)) as E' by (apply IH; done).
        rewrite Es in E'. done.
Qed.

Lemma matchTail_true t :
  matchTail t = true <->
  exists rest, t = rest ++ [41%N]
    /\ (rest = [] \/ exists w, rest = 44%N :: w /\ Forall (fun c => isLineTerminator c = false) w).
Proof.
  split.
  - intros H.
    assert (t = [41%N] \/ exists w, t = 44%N :: w /\
              forallb (fun c => negb (isLineTerminator c)) w = true
              /\ last w = Some 41%N) as [->|(w & -> & Hf & Hl)].
    { unfold matchTail in H.
      destruct t as [|c t]; [done|].
      destruct (decide (c = 41%N)) as [->|N1].
      - destruct t; [by left | done].
      - destruct (decide (c = 44%N)) as [->|N2].
        + right. exists t. apply andb_true_iff in H as [H1 H2].
          apply bool_decide_eq_true in H2. done.
        + exfalso. clear -H N1 N2.
          code_unit_cases c ltac:(try done). }
    + exists []. split; [done | by left].
    + apply last_Some in Hl as [w' ->]. exists (44%N :: w'). split; [done|]. right.
      exists w'. split; [done|].
      rewrite forallb_app in Hf. apply andb_true_iff in Hf as [Hf _].
      apply Forall_forall. intros c Hc. rewrite forallb_forall in Hf.
      apply negb_true_iff, Hf, list_elem_of_In, Hc.
  - intros (rest & -> & [->|(w & -> & Hw)]); [done|].
    simpl. apply andb_true_iff. split.
    + rewrite forallb_app. apply andb_true_iff. split; [|done].
      apply forallb_forall. intros c Hc. apply negb_true_iff.
      rewrite Forall_forall in Hw. apply Hw, list_elem_of_In, Hc.
    + apply bool_decide_eq_true. by rewrite last_snoc.
Qed.

(** The matcher decides the pattern: it returns the capture exactly when
    the string factors as the pattern says. *)
Lemma matchImageFormula_spec s url :
  matchImageFormula s = Some url <-> ImageFormula s url.
Proof.
  unfold matchImageFormula, ImageFormula. split.
  - destruct (stripPrefixCI (lit "=IMAGE(") s) as [s1|] eqn:E1; [|done].
    apply stripPrefixCI_Some in E1 as (pre & -> & Hpre).
    destruct (trimStart_split s1) as (ws & Hs1 & Hws).
    destruct (trimStart s1) as [|q s2]; [done|].
    destruct (decide (q = 34%N)) as [->|Hq].
    + destruct (splitAtQuote s2) as [[[|c u] t]|] eqn:E2; [done| |done].
      destruct (matchTail t) eqn:E3; [|done]. intros [= <-].
      apply splitAtQuote_Some in E2 as [-> Hu].
      apply matchTail_true in E3 as (rest & -> & Hrest).
      exists pre, ws, rest. rewrite Hs1. done.
    + intros H. exfalso. clear -H Hq.
      code_unit_cases q ltac:(try done).
  - intros (pre & ws & rest & -> & Hpre & Hws & Hne & Hu & Hrest).
    assert (stripPrefixCI (lit "=IMAGE(") (pre ++ ws ++ 34%N :: url ++ 34%N :: rest ++ [41%N])
            = Some (ws ++ 34%N :: url ++ 34%N :: rest ++ [41%N])) as ->.
    { apply stripPrefixCI_Some. by exists pre. }
    rewrite trimStart_app_ws by done. simpl.
    assert (splitAtQuote (url ++ 34%N :: rest ++ [41%N]) = Some (url, rest ++ [41%N])) as ->.
    { by apply splitAtQuote_Some. }
    destruct url as [|c url]; [done|].
    assert (matchTail (rest ++ [41%N]) = true) as ->; [|done].
    apply matchTail_true. by exists rest.
Qed.

(** The pattern on some strings: sizing arguments and lower case match; a
    line break in the arguments, a missing parenthesis, an empty capture
    and text after the parenthesis do not. *)
Example matchImageFormula_cases :
  let q := [34%N] in
  matchImageFormula (lit "=image(  " ++ q ++ lit "http://x/a.png" ++ q ++ lit ", 4, 60, 60)")
  = Some (lit "http://x/a.png")
  /\ matchImageFormula (lit "=IMAGE(" ++ q ++ lit "u" ++ q ++ lit ",1" ++ [10%N] ++ lit ")") = None
  /\ matchImageFormula (lit "=IMAGE(" ++ q ++ lit "u" ++ q) = None
  /\ matchImageFormula (lit "=IMAGE(" ++ q ++ q ++ lit ")") = None
  /\ matchImageFormula (lit "=IMAGE(" ++ q ++ lit "u" ++ q ++ lit ") ") = None
  /\ matchImageFormula (lit "=IMAGE(" ++ q ++ lit "u" ++ [10%N] ++ lit "v" ++ q ++ lit ")")
     = Some (lit "u" ++ [10%N] ++ lit "v").
Proof. repeat split; reflexivity. Qed.

(** A string without double quote is no image formula. *)
Lemma matchImageFormula_quote s url : matchImageFormula s = Some url -> 34%N ∈ s.
Proof.
  intros (pre & ws & rest & -> & _)%matchImageFormula_spec.
  rewrite !elem_of_app, elem_of_cons. auto.
Qed.

(** The capture holds no double quote. *)
Lemma matchImageFormula_capture s url : matchImageFormula s = Some url -> 34%N ∉ url.
Proof. intros (pre & ws & rest & _ & _ & _ & _ & H & _)%matchImageFormula_spec. done. Qed.

End ImageFormulaFacts.

(** ** The state normalizer *)

Section NormalizerFacts.
Import Backend.

Lemma StronglySorted_filter_keep {A} (R : relation A) (P : A -> Prop)
    `{forall x, Decision (P x)} (l : list A) :
  StronglySorted R l -> StronglySorted R (filter P l).
Proof.
  induction 1 as [|x l _ IH Hx]; [constructor|].
  rewrite filter_cons. destruct (decide (P x)); [|done].
  constructor; [done|]. apply Forall_forall. intros y [_ Hy]%list_elem_of_filter.
  rewrite Forall_forall in Hx. auto.
Qed.

(** Numbering the rows from [k] gives increasing row numbers. *)
Lemma imap_rows_sorted (g : nat -> list json -> LogEntry) (k : Z) (rows : list (list json)) :
  (forall i r, row (g i r) = Z.of_nat i + k) ->
  StronglySorted (fun a b => row a < row b) (imap g rows).
Proof.
  revert g k. induction rows as [|r rows IH]; intros g k Hg; [constructor|].
  rewrite imap_cons. constructor.
  - apply (IH _ (k + 1)). intros i r'. simpl. rewrite Hg. lia.
  - apply Forall_forall. intros e (i & r' & -> & _)%elem_of_lookup_imap.
    simpl. rewrite !Hg. lia.
Qed.

(** The example of the specification: the second row gives the image, and
    only the second row has a log line. *)
Example getStateData_two_rows :
  let d := getStateData
      [[JStr (lit "RUN"); JStr (lit "t1"); JStr (lit "http://x/img.png"); JStr []; JStr []];
       [JStr (lit "RUN"); JStr (lit "t1"); JStr (lit "http://y/img2.png"); JStr [];
        JStr (lit "line2")]] in
  imageUrl d = JStr (lit "http://y/img2.png")
  /\ logs d = [{| row := 3; text := lit "line2" |}].
Proof. split; reflexivity. Qed.

(** C2.  For every raw row set, the logs of the normalized state are in
    strictly ascending order of row number, the row number of every entry
    is the 0-based index of its source row plus 2 (its text being the fifth
    cell of that row as text), and no entry has an empty or white-space-only
    text. *)
Theorem getState_logs_sorted_indexed_nonblank (rows : list (list json)) :
  let ls := logs (getStateData rows) in
  StronglySorted (fun a b => row a < row b) ls
  /\ Forall (fun e => exists i r,
                rows !! i = Some r /\ row e = Z.of_nat i + 2 /\ text e = logText r) ls
  /\ Forall (fun e => text e <> [] /\ isBlank (text e) = false) ls.
Proof.
  simpl. repeat split.
  - apply StronglySorted_filter_keep. by apply (imap_rows_sorted _ 2).
  - apply Forall_forall. intros e [_ (i & r & -> & Hr)%elem_of_lookup_imap]%list_elem_of_filter.
    by exists i, r.
  - apply Forall_forall. intros e [[H1 H2] _]%list_elem_of_filter.
    split; [done|]. unfold isBlank. by apply bool_decide_eq_false.
Qed.

(** C3.  For every raw row set, [imageUrl] and [C3] are the same value:
    the unwrapped third cell of the second row when that row exists and has
    a third cell, and otherwise the unwrapped third cell of the first row.
    Unwrapped means: the empty string for a missing or [null] cell; for a
    string cell that, once trimmed, is an image formula, the URL between
    its quotes; for any other string cell the trimmed string; and any other
    value as it is. *)
Theorem getState_imageUrl_C3 (rows : list (list json)) :
  let d := getStateData rows in
  let cell := match cellAt (rows !! 1%nat) 2 with
              | Some c => Some c
              | None => cellAt (rows !! 0%nat) 2
              end in
  imageUrl d = C3 d
  /\ C3 d = normalizeImageValue cell
  /\ normalizeImageValue None = JStr []
  /\ match cell with
     | None | Some JNull => C3 d = JStr []
     | Some (JStr s) =>
         (forall url, ImageFormula (trim s) url -> C3 d = JStr url)
         /\ ((forall url, ~ ImageFormula (trim s) url) -> C3 d = JStr (trim s))
     | Some v => C3 d = v
     end.
Proof.
  intros d cell.
  assert (C3 d = normalizeImageValue cell) as HC3.
  { subst d cell. simpl. f_equal.
    destruct rows as [|r [|r2 rows]]; simpl.
    - done.
    - by destruct (bool_decide (3 <= length r)%nat).
    - case_bool_decide as H3.
      + destruct (lookup_lt_is_Some_2 r2 2%nat) as [c Hc]; [lia|]. by rewrite Hc.
      + rewrite (lookup_ge_None_2 r2 2%nat) by lia. done. }
  split; [done|]. split; [done|]. split; [done|].
  rewrite HC3. clear HC3. destruct cell as [[| | |s| |]|]; try done.
  unfold normalizeImageValue. split.
  - intros url Hf. apply matchImageFormula_spec in Hf. by rewrite Hf.
  - intros Hn. destruct (matchImageFormula (trim s)) as [url|] eqn:E; [|done].
    apply matchImageFormula_spec in E. by destruct (Hn url).
Qed.

Lemma getState_imageUrl_C3_witness :
  let d := getStateData
      [[JStr (lit "RUN"); JStr (lit "t1"); JStr (lit "http://x/img.png")];
       [JStr (lit "RUN"); JStr (lit "t1");
        JStr (lit " =image(  " ++ 34%N :: lit "http://y/img2.png" ++ 34%N :: lit ", 1) ")]] in
  imageUrl d = JStr (lit "http://y/img2.png") /\ C3 d = JStr (lit "http://y/img2.png").
Proof.
  intros d.
  destruct (getState_imageUrl_C3
      [[JStr (lit "RUN"); JStr (lit "t1"); JStr (lit "http://x/img.png")];
       [JStr (lit "RUN"); JStr (lit "t1");
        JStr (lit " =image(  " ++ 34%N :: lit "http://y/img2.png" ++ 34%N :: lit ", 1) ")]])
    as (Hi & _ & _ & Hf & _).
  fold d in Hi, Hf. rewrite Hi. split; apply Hf, matchImageFormula_spec; reflexivity.
Defined.

(** C4, as the code has it: a second application of [normalizeImageValue]
    only trims the result of the first.  So the function is idempotent on
    every string whose first result has no white space at its ends, which
    includes every string that is not an image formula. *)
Theorem normalizeImageValue_twice (s u : jsstring) :
  normalizeImageValue (Some (JStr s)) = JStr u ->
  normalizeImageValue (Some (JStr u)) = JStr (trim u)
  /\ (matchImageFormula (trim s) = None -> trim u = u).
Proof.
  unfold normalizeImageValue.
  destruct (matchImageFormula (trim s)) as [url|] eqn:E; intros [= <-].
  - split; [|done].
    destruct (matchImageFormula (trim url)) as [v|] eqn:E'; [|done].
    exfalso. apply matchImageFormula_quote in E'. apply matchImageFormula_capture in E.
    by apply E, trim_subseteq.
  - rewrite trim_idem, E. done.
Qed.

Lemma normalizeImageValue_twice_witness :
  normalizeImageValue (Some (JStr (lit "  http://x/a.png "))) = JStr (lit "http://x/a.png")
  /\ normalizeImageValue (Some (JStr (lit "http://x/a.png"))) = JStr (trim (lit "http://x/a.png"))
  /\ (matchImageFormula (trim (lit "  http://x/a.png ")) = None ->
      trim (lit "http://x/a.png") = lit "http://x/a.png").
Proof.
  split; [reflexivity|].
  apply (normalizeImageValue_twice (lit "  http://x/a.png ") (lit "http://x/a.png")).
  reflexivity.
Defined.

(** C4 as stated fails: the capture of an image formula keeps the white
    space inside the quotes, which the second application trims. *)
Lemma normalizeImageValue_not_idempotent :
  let s := lit "=IMAGE(" ++ 34%N :: lit " a" ++ 34%N :: lit ")" in
  normalizeImageValue (Some (JStr s)) = JStr (lit " a")
  /\ normalizeImageValue (Some (normalizeImageValue (Some (JStr s)))) = JStr (lit "a")
  /\ normalizeImageValue (Some (normalizeImageValue (Some (JStr s))))
     <> normalizeImageValue (Some (JStr s)).
Proof.
  intros s. split; [reflexivity|]. split; [reflexivity|]. vm_compute. discriminate.
Qed.

(** C6 as stated fails: a number in the first row comes out as a number,
    not as its string form. *)
Lemma getState_number_not_coerced :
  let d := getStateData [[JNum 42; JNum 7; JNum 1; JNum 123; JNum 0]] in
  A2 d = JNum 42 /\ B2 d = JNum 7 /\ C2 d = JNum 1 /\ D2 d = JNum 123 /\ E2 d = JNum 0
  /\ isString (A2 d) = false
  /\ A2 d <> JStr (jsonToString (JNum 42)).
Proof.
  intros d. do 6 (split; [reflexivity|]). vm_compute. discriminate.
Qed.

(** C6, as the code has it: [A2], [B2], [D2] and [E2] are the cells of the
    first row as they are, and [C2] is the unwrapped third cell; a [null] or
    missing cell gives the empty string.  Each field is a string exactly
    when its cell is a string, [null] or missing. *)
Theorem getState_first_row_fields (rows : list (list json)) :
  let d := getStateData rows in
  let cell := cellAt (rows !! 0%nat) in
  (A2 d = nullish (cell 0%nat) (JStr []) /\ isString (A2 d) = stringOrAbsent (cell 0%nat))
  /\ (B2 d = nullish (cell 1%nat) (JStr []) /\ isString (B2 d) = stringOrAbsent (cell 1%nat))
  /\ (C2 d = normalizeImageValue (cell 2%nat) /\ isString (C2 d) = stringOrAbsent (cell 2%nat))
  /\ (D2 d = nullish (cell 3%nat) (JStr []) /\ isString (D2 d) = stringOrAbsent (cell 3%nat))
  /\ (E2 d = nullish (cell 4%nat) (JStr []) /\ isString (E2 d) = stringOrAbsent (cell 4%nat)).
Proof.
  simpl.
  assert (forall c, isString (nullish c (JStr [])) = stringOrAbsent c) as Hn.
  { by intros [[]|]. }
  assert (forall c, isString (normalizeImageValue c) = stringOrAbsent c) as Hi.
  { intros [[| | |s| |]|]; try done. simpl. by destruct (matchImageFormula (trim s)). }
  repeat split; auto.
Qed.

End NormalizerFacts.

(** ** The handler of update-cell *)

Section UpdateCellFacts.
Import Backend.


(** A string in [cell] goes to the service as it is. *)
Lemma handleUpdateCell_string_cell
    (cfg : Config) (api : Sheets) (reqBody : option json) (id cell : jsstring) :
  sheetId cfg = Some id ->
  cellField reqBody = Some cell ->
  (getSheetsClient cfg api).2 = None ->
  (handleUpdateCell cfg api reqBody).1
  = (getSheetsClient cfg api).1
    ++ [CallUpdate id (SHEET_NAME cfg ++ lit "!" ++ cell)
          (nullish (getProp (bodyOrEmpty reqBody) "value") (JStr []))].
Proof.
  intros Hid Hc Hauth. unfold handleUpdateCell, cellField in *. rewrite Hid.
  destruct (getProp (bodyOrEmpty reqBody) "cell") as [[| | |c| |]|]; try done.
  injection Hc as ->. destruct (getSheetsClient cfg api) as [calls [e|]]; [done|]. simpl.
  by destruct (values_update api id _ _).
Qed.



(** An action that is neither get-state nor update-cell. *)
Example postSheet_unknown_action :
  postSheet testConfig (testSheets None) (Some (JObj [(lit "action", JStr (lit "bogus"))]))
  = ([], {| status := 400; body := failure (lit "Unknown action") |}).
Proof. reflexivity. Qed.

End UpdateCellFacts.

(** ** The request wrapper of the client *)

Section SheetRequestFacts.
Import SheetClient.

(** With the endpoint configured the request goes out, and the result is
    decided by the response alone. *)
Lemma sheetRequest_sent net u action payload :
  u <> [] ->
  sheetRequest net (Some u) action payload
  = ([postRequest u action payload],
     match net (postRequest u action payload) with
     | Some r => readResponse r
     | None => Thrown FetchFailed
     end).
Proof.
  intros Hu. unfold sheetRequest. destruct u as [|c u]; [done|]. simpl.
  by destruct (net _).
Qed.

Lemma nullish_not_null (a : option json) (b : json) : b <> JNull -> nullish a b <> JNull.
Proof. destruct a as [[]|]; simpl; congruence. Qed.

(** What [sheetRequest] returns is never [null]. *)
Lemma sheetRequest_not_null net env action payload sent v :
  sheetRequest net env action payload = (sent, Returned v) -> v <> JNull.
Proof.
  unfold sheetRequest. destruct (getScriptUrl env) as [u|e]; [|done].
  destruct (net _) as [r|]; [|done]. intros [= _ H]. revert H.
  unfold readResponse. destruct (negb (ok r)); [done|].
  destruct (default (JObj []) (parsed r)) as [| | | | |props] eqn:E; try done.
  - intros [= <-]. done.
  - intros [= <-]. done.
  - intros [= <-]. done.
  - intros [= <-]. done.
  - destruct (getProp (JObj props) "success") as [[|[]| | | |]|];
      try done; intros [= <-];
      by apply nullish_not_null.
Qed.

(** C9.  With the endpoint configured, [submitAnswer] sends, for every
    string [answer] whatever its length and content, exactly one POST whose
    body has the action update-cell, the cell D2 and the answer as value:
    nothing in it tests the answer. *)
Theorem submitAnswer_issues_write
    (net : Request -> option Response) (u answer : jsstring) :
  u <> [] ->
  (submitAnswer net (Some u) answer).1
  = [{| url := u; method := lit "POST";
        headers := [(lit "Content-Type", lit "application/json")];
        body := JObj [(lit "action", JStr (lit "update-cell"));
                      (lit "cell", JStr (lit "D2"));
                      (lit "value", JStr answer)] |}].
Proof.
  intros Hu. unfold submitAnswer. rewrite sheetRequest_sent by done.
  by destruct (net _) as [r|]; [destruct (readResponse r)|].
Qed.

Lemma submitAnswer_issues_write_witness :
  (lit "http://localhost:4000/sheet" : jsstring) <> []
  /\ (submitAnswer (fun _ => None) (Some (lit "http://localhost:4000/sheet")) (lit "12ab5")).1
     = [{| url := lit "http://localhost:4000/sheet"; method := lit "POST";
           headers := [(lit "Content-Type", lit "application/json")];
           body := JObj [(lit "action", JStr (lit "update-cell"));
                         (lit "cell", JStr (lit "D2"));
                         (lit "value", JStr (lit "12ab5"))] |}].
Proof.
  split; [discriminate|].
  apply (submitAnswer_issues_write (fun _ => None)). discriminate.
Defined.

(** The proxy turns that body into a write of the answer to the cell D2 of
    the sheet. *)
Lemma submitAnswer_reaches_sheet (cfg : Backend.Config) (api : Backend.Sheets)
    (id answer : jsstring) :
  Backend.sheetId cfg = Some id ->
  (Backend.getSheetsClient cfg api).2 = None ->
  (Backend.postSheet cfg api
     (Some (requestBody (lit "update-cell")
              [(lit "cell", JStr (lit "D2")); (lit "value", JStr answer)]))).1
  = (Backend.getSheetsClient cfg api).1
    ++ [Backend.CallUpdate id (Backend.SHEET_NAME cfg ++ lit "!D2") (JStr answer)].
Proof.
  intros Hid Hauth.
  set (b := requestBody _ _).
  change (Backend.postSheet cfg api (Some b)) with (Backend.handleUpdateCell cfg api (Some b)).
  by rewrite (handleUpdateCell_string_cell cfg api (Some b) id (lit "D2")).
Qed.

(** C10 as stated fails: a 2xx response whose body is the JSON document
    [null] makes the wrapper throw, though the status is 2xx and no
    [success] field is [false]. *)
Lemma sheetRequest_null_body_throws :
  let r := {| status := 200; statusText := lit "OK"; parsed := Some JNull |} in
  ok r = true
  /\ getProp JNull "success" = None
  /\ sheetRequest (fun _ => Some r) (Some (lit "http://localhost:4000/sheet"))
       (lit "get-state") []
     = ([postRequest (lit "http://localhost:4000/sheet") (lit "get-state") []],
        Thrown TypeError).
Proof. repeat split; reflexivity. Qed.

(** C10, as the code has it: for a response whose body is not the JSON
    document [null], the wrapper throws exactly when the status is not 2xx
    or the [success] field of the envelope is [false].  A 2xx response
    whose body is no JSON is taken as the empty envelope and returned, an
    envelope without [success] field is a success, and without a [data]
    field (or with [data: null]) the result is the envelope itself. *)
Theorem sheetRequest_throws_only
    (net : Request -> option Response) (u action : jsstring)
    (payload : list (jsstring * json)) (r : Response) :
  u <> [] ->
  net (postRequest u action payload) = Some r ->
  parsed r <> Some JNull ->
  let envelope := default (JObj []) (parsed r) in
  let out := (sheetRequest net (Some u) action payload).2 in
  ((exists e, out = Thrown e)
     <-> (ok r = false \/ getProp envelope "success" = Some (JBool false)))
  /\ (ok r = true -> parsed r = None -> out = Returned (JObj []))
  /\ (ok r = true -> getProp envelope "success" = None ->
        out = Returned (nullish (getProp envelope "data") envelope))
  /\ (ok r = true -> getProp envelope "success" <> Some (JBool false) ->
        getProp envelope "data" = None \/ getProp envelope "data" = Some JNull ->
        out = Returned envelope).
Proof.
  intros Hu Hnet Hnull. rewrite sheetRequest_sent by done. rewrite Hnet. simpl.
  unfold readResponse.
  assert (default (JObj []) (parsed r) <> JNull) as Henv.
  { destruct (parsed r) as [j|]; simpl; congruence. }
  destruct (ok r); simpl.
  - set (envelope := default (JObj []) (parsed r)) in *.
    assert (forall A (a b : A), match envelope with JNull => a | _ => b end = b) as Hm.
    { intros. by destruct envelope. }
    rewrite Hm. clear Hm. repeat split.
    + intros [e He]. right.
      destruct (getProp envelope "success") as [[|[]| | | |]|]; done.
    + intros [|H]; [done|]. rewrite H. eauto.
    + intros _ Hp. subst envelope. by rewrite Hp.
    + intros _ H. by rewrite H.
    + intros _ Hs [Hd|Hd]; rewrite Hd;
        by destruct (getProp envelope "success") as [[|[]| | | |]|].
  - repeat split; try done.
    + intros _. by left.
    + intros _. eauto.
Qed.

Lemma sheetRequest_throws_only_witness :
  let r := {| status := 200; statusText := lit "OK"; parsed := None |} in
  (sheetRequest (fun _ => Some r) (Some (lit "http://localhost:4000/sheet"))
     (lit "get-state") []).2 = Returned (JObj []).
Proof.
  intros r.
  destruct (sheetRequest_throws_only (fun _ => Some r) (lit "http://localhost:4000/sheet")
              (lit "get-state") [] r) as (_ & H & _);
    [discriminate | reflexivity | discriminate |].
  apply H; reflexivity.
Defined.

End SheetRequestFacts.

(** ** The reconstruction of the log *)

Section CollectLogsFacts.
Import SheetClient.

(** Running a sequence of calls of [assign] on the map. *)
Local Abbreviation applyCalls calls entries :=
  (foldl (fun (m : gmap Z jsstring) (c : Z * json) => assign c.1 c.2 m) entries calls).

Lemma fromArrayItem_calls index item entries :
  fromArrayItem index item entries
  = if itemThrows index item then None
    else Some (applyCalls (itemCalls index item) entries).
Proof.
  unfold fromArrayItem, itemCalls, itemThrows.
  destruct item as [|b|n|s|items|props]; try done.
  - by destruct b.
  - simpl. by destruct (n =? 0).
  - change (isTruthy (JObj props) && typeofObject (JObj props)) with true.
    rewrite andb_true_l.
    destruct (_ || _); [|done]. rewrite andb_true_l.
    destruct (rowCandidateThrows _ _); [done|].
    by destruct (textCandidate _) as [[|]|].
Qed.

Lemma fromArrayFrom_calls index arr entries :
  fromArrayFrom index arr entries
  = if arrayThrowsFrom index arr then None
    else Some (applyCalls (arrayCallsFrom index arr) entries).
Proof.
  revert index entries. induction arr as [|item rest IH]; intros index entries; simpl; [done|].
  rewrite fromArrayItem_calls. destruct (itemThrows index item); [done|]. simpl.
  rewrite IH. by rewrite foldl_app.
Qed.

Lemma fromMaybeArray_calls v entries :
  fromMaybeArray v entries
  = if maybeArrayThrows v then None else Some (applyCalls (maybeArrayCalls v) entries).
Proof. destruct v as [[]|]; try done. apply fromArrayFrom_calls. Qed.

Lemma assignLines_calls index lines entries :
  assignLines index lines entries = applyCalls (lineCalls index lines) entries.
Proof.
  revert index entries. induction lines as [|l rest IH]; intros index entries; simpl; [done|].
  by rewrite IH.
Qed.

Lemma fromLogString_calls v entries :
  fromLogString v entries = applyCalls (logStringCalls v) entries.
Proof. destruct v as [[]|]; try done. apply assignLines_calls. Qed.

Lemma fromKeys_calls props entries :
  fromKeys props entries = applyCalls (keyCalls props) entries.
Proof.
  revert entries. induction props as [|[key value] rest IH]; intros entries; simpl; [done|].
  rewrite foldl_app, IH.
  destruct (matchEKey key) as [digits|]; [|done]. by destruct (parseInt digits).
Qed.

(** The key [E<N>] always gives a row number. *)
Lemma matchEKey_parseInt key digits :
  matchEKey key = Some digits -> is_Some (parseInt digits).
Proof.
  unfold matchEKey. destruct key as [|c [|d ds]]; try done.
  destruct (_ && _) eqn:E; [|done]. intros [= <-].
  apply andb_true_iff in E as [_ E]. simpl in E. apply andb_true_iff in E as [Hd _].
  unfold parseInt.
  assert (isWhiteSpace d = false) as Hw.
  { unfold isDigit in Hd. unfold isWhiteSpace. apply andb_true_iff in Hd as [H1 H2].
    apply N.leb_le in H1, H2.
    repeat match goal with
           | |- context [(?a <=? ?b)%N] => destruct (N.leb_spec a b)
           | |- context [(?a =? ?b)%N] => destruct (N.eqb_spec a b)
           end; simpl; try done; lia. }
  simpl. rewrite Hw.
  assert (d <> 45%N /\ d <> 43%N) as [N1 N2].
  { unfold isDigit in Hd. apply andb_true_iff in Hd as [H1 H2].
    apply N.leb_le in H1, H2. lia. }
  assert (match d :: ds with
          | 45%N :: r => (true, r)
          | 43%N :: r => (false, r)
          | _ => (false, d :: ds)
          end = (false, d :: ds)) as Hm.
  { clear -N1 N2. code_unit_cases d ltac:(try reflexivity; try done). }
  rewrite Hm. by rewrite Hd.
Qed.

(** The map after a sequence of calls holds, for every row, the last text
    written for it. *)
Lemma applyCalls_lookup calls (entries : gmap Z jsstring) r :
  applyCalls calls entries !! r = from_option Some (entries !! r) (lastWritten r calls).
Proof.
  revert entries. unfold lastWritten.
  induction calls as [|[r' v] calls IH]; intros entries; simpl; [done|].
  rewrite IH. unfold writes at 2, assign. simpl.
  destruct v as [| | |s| |]; try done.
  destruct (isBlank s); [done|].
  case_bool_decide as Hr.
  - subst r'. rewrite last_cons, lookup_insert_eq. by destruct (last _).
  - by rewrite lookup_insert_ne.
Qed.

Lemma lastWritten_not_blank r calls t : lastWritten r calls = Some t -> isBlank t = false.
Proof.
  unfold lastWritten. intros [l Hl]%last_Some.
  assert (t ∈ omap (writes r) calls) as Ht.
  { rewrite Hl, elem_of_app, list_elem_of_singleton. by right. }
  apply list_elem_of_omap in Ht as ([r' v] & _ & Hw).
  unfold writes in Hw. simpl in Hw. destruct v; try done.
  destruct (isBlank s) eqn:E; [done|]. case_bool_decide; [|done]. by injection Hw as <-.
Qed.

#[local] Instance rowLe_transitive : Transitive rowLe.
Proof. intros a b c. unfold rowLe. lia. Qed.

#[local] Instance rowLe_total : Total rowLe.
Proof. intros a b. unfold rowLe. lia. Qed.

(** A list in strictly ascending order of row has no row twice. *)
Lemma strictly_sorted_NoDup (ls : list SheetLogEntry) :
  StronglySorted (fun a b => row a < row b) ls -> NoDup (row <$> ls).
Proof.
  induction 1 as [|e ls _ IH He]; csimpl; constructor; [|done].
  intros (e' & Hr & He')%list_elem_of_fmap.
  rewrite Forall_forall in He. specialize (He e' He'). lia.
Qed.

(** Entries in ascending order of distinct keys are in strictly ascending
    order. *)
Lemma sorted_distinct_strict (l : list (Z * jsstring)) :
  StronglySorted rowLe l -> NoDup (l.*1) ->
  StronglySorted (fun a b : Z * jsstring => a.1 < b.1) l.
Proof.
  induction 1 as [|x l _ IH Hx]; csimpl; intros Hnd; [constructor|].
  apply NoDup_cons in Hnd as [Hx' Hnd]. constructor; [auto|].
  apply Forall_forall. intros y Hy. rewrite Forall_forall in Hx.
  specialize (Hx y Hy). unfold rowLe in Hx.
  assert (x.1 <> y.1); [|lia].
  intros E. apply Hx'. rewrite E. apply list_elem_of_fmap. by exists y.
Qed.

(** The sorted listing of the map: strictly ascending rows, and the
    entries of the map, no more and no less. *)
Lemma sorted_entries (m : gmap Z jsstring) :
  let ls := (fun e : Z * jsstring => {| row := e.1; text := e.2 |})
              <$> merge_sort rowLe (map_to_list m) in
  StronglySorted (fun a b => row a < row b) ls
  /\ forall r t, {| row := r; text := t |} ∈ ls <-> m !! r = Some t.
Proof.
  simpl. split.
  - apply (StronglySorted_fmap _ (fun a b : Z * jsstring => a.1 < b.1)); [done|].
    apply sorted_distinct_strict.
    + apply StronglySorted_merge_sort; apply _.
    + rewrite merge_sort_Permutation. apply NoDup_fst_map_to_list.
  - intros r t. rewrite <- elem_of_map_to_list, list_elem_of_fmap.
    setoid_rewrite merge_sort_Permutation. split.
    + intros ([r' t'] & [= -> ->] & H). exact H.
    + intros H. by exists (r, t).
Qed.

(** Two lists in strictly ascending order of row with the same entries are
    the same list. *)
Lemma strictly_sorted_unique (l1 l2 : list SheetLogEntry) :
  StronglySorted (fun a b => row a < row b) l1 ->
  StronglySorted (fun a b => row a < row b) l2 ->
  (forall e, e ∈ l1 <-> e ∈ l2) -> l1 = l2.
Proof.
  intros H1 H2 Hel.
  apply (StronglySorted_unique_strong (fun a b => row a < row b)); [|done|done|].
  - intros x1 x2 _ _ ? ?. lia.
  - apply NoDup_Permutation; [| |done].
    + eapply NoDup_fmap_1, strictly_sorted_NoDup, H1.
    + eapply NoDup_fmap_1, strictly_sorted_NoDup, H2.
Qed.

(** [collectLogs] throws on [null] and on an item that throws, and is
    otherwise the sorted listing of the map that the calls of [assign] build
    from the empty map. *)
Lemma collectLogs_cases raw :
  collectLogs raw
  = if match raw with JNull => true | _ => false end || logsThrow raw then None
    else Some ((fun e : Z * jsstring => {| row := e.1; text := e.2 |})
                 <$> merge_sort rowLe (map_to_list (applyCalls (assignCalls raw) ∅))).
Proof.
  unfold assignCalls, logsThrow. rewrite !foldl_app.
  rewrite <- fromLogString_calls, <- fromKeys_calls.
  destruct raw; try done; unfold collectLogs; rewrite fromMaybeArray_calls, orb_false_l;
    (destruct (maybeArrayThrows (getProp _ "logs")); [done|]);
    rewrite fromMaybeArray_calls, orb_false_l;
    by destruct (maybeArrayThrows (getProp _ "log")).
Qed.

Lemma collectLogs_calls raw :
  raw <> JNull -> logsThrow raw = false ->
  collectLogs raw
  = Some ((fun e : Z * jsstring => {| row := e.1; text := e.2 |})
            <$> merge_sort rowLe (map_to_list (applyCalls (assignCalls raw) ∅))).
Proof. intros Hraw Ht. rewrite collectLogs_cases, Ht. by destruct raw. Qed.

Lemma collectLogs_None raw :
  collectLogs raw = None <-> raw = JNull \/ logsThrow raw = true.
Proof.
  rewrite collectLogs_cases.
  destruct (logsThrow raw); rewrite ?orb_true_r, ?orb_false_r.
  - split; [by right|done].
  - destruct raw; split; try done; try (by left); by intros [?|?].
Qed.

(** An example with every shape at once: the array [logs] with a string,
    an object with [row] and one with [index] and [value]; a multi-line
    [log]; keys [E<N>], of which [e7] overwrites row 7 and the blank [E07]
    writes nothing. *)
Example collectLogs_shapes :
  collectLogs
    (JObj [(lit "logs",
            JArr [JStr (lit "a");
                  JObj [(lit "row", JNum 7); (lit "text", JStr (lit "seven"))];
                  JObj [(lit "index", JStr (lit "3")); (lit "value", JStr (lit "five"))]]);
           (lit "log", JStr (lit "x" ++ [13; 10]%N ++ lit "  " ++ [10]%N ++ lit "y "));
           (lit "e7", JStr (lit "SEVEN"));
           (lit "E07", JStr (lit " "));
           (lit "E1", JStr (lit "one"))])
  = Some [{| row := 1; text := lit "one" |}; {| row := 2; text := lit "x" |};
          {| row := 3; text := lit "y" |}; {| row := 5; text := lit "five" |};
          {| row := 7; text := lit "SEVEN" |}].
Proof. vm_compute. reflexivity. Qed.

(** An item whose [row] cannot be converted to a string ends the
    reconstruction with a [TypeError], also when the item has no text and
    when the rest of the response is well formed. *)
Example collectLogs_throws :
  collectLogs
    (JObj [(lit "logs",
            JArr [JStr (lit "a");
                  JObj [(lit "row", JObj [(lit "toString", JNum 1)])]]);
           (lit "E1", JStr (lit "one"))])
  = None
  /\ collectLogs
       (JObj [(lit "log",
               JArr [JObj [(lit "index", JArr [JObj [(lit "toString", JNull)]]);
                           (lit "text", JStr (lit "t"))]])])
     = None
  /\ collectLogs
       (JObj [(lit "logs",
               JArr [JObj [(lit "row", JNum 4);
                           (lit "index", JObj [(lit "toString", JNum 1)]);
                           (lit "text", JStr (lit "four"))]])])
     = Some [{| row := 4; text := lit "four" |}].
Proof. vm_compute. done. Qed.

(** C5.  [collectLogs] returns a list for every raw response except [null]
    and the responses with an item of [logs] or [log] whose row cannot be
    converted to a string, on which it throws.  The list it returns is in
    strictly ascending order of row, has no row twice, holds for each row
    exactly the last text written for it by the calls of [assign] (and no
    entry for a row never written), and has no blank text.  The list is
    determined by these last texts: any list in strictly ascending order
    with the same entries is equal to it. *)
Theorem collectLogs_last_write_wins (raw : json) :
  (collectLogs raw = None <-> raw = JNull \/ logsThrow raw = true)
  /\ (raw <> JNull -> logsThrow raw = false ->
      exists ls,
        collectLogs raw = Some ls
        /\ StronglySorted (fun a b => row a < row b) ls
        /\ NoDup (row <$> ls)
        /\ (forall r t,
              {| row := r; text := t |} ∈ ls <-> lastWritten r (assignCalls raw) = Some t)
        /\ Forall (fun e => isBlank (text e) = false) ls
        /\ (forall ls',
              StronglySorted (fun a b => row a < row b) ls' ->
              (forall r t,
                 {| row := r; text := t |} ∈ ls'
                 <-> lastWritten r (assignCalls raw) = Some t) ->
              ls' = ls)).
Proof.
  split; [apply collectLogs_None|].
  intros Hraw Ht. eexists. split; [by apply collectLogs_calls|].
  destruct (sorted_entries (applyCalls (assignCalls raw) ∅)) as [Hs Hel].
  set (ls := _ <$> merge_sort rowLe _) in *.
  assert (forall r t,
            {| row := r; text := t |} ∈ ls <-> lastWritten r (assignCalls raw) = Some t) as Hw.
  { intros r t. rewrite Hel, applyCalls_lookup, lookup_empty.
    by destruct (lastWritten r (assignCalls raw)). }
  split; [done|]. split; [by apply strictly_sorted_NoDup|]. split; [done|]. split.
  - apply Forall_forall. intros [r t] He. apply Hw in He.
    by apply lastWritten_not_blank in He.
  - intros ls' Hs' Hw'. apply strictly_sorted_unique; [done|done|].
    intros [r t]. by rewrite Hw, Hw'.
Qed.

Lemma collectLogs_last_write_wins_witness :
  exists ls,
    collectLogs
      (JObj [(lit "logs", JArr [JObj [(lit "row", JStr (lit "7"));
                                      (lit "text", JStr (lit "zero"))]]);
             (lit "E7", JStr (lit "first")); (lit "e7", JStr (lit "second"))]) = Some ls
    /\ {| row := 7; text := lit "second" |} ∈ ls.
Proof.
  destruct (collectLogs_last_write_wins
              (JObj [(lit "logs", JArr [JObj [(lit "row", JStr (lit "7"));
                                              (lit "text", JStr (lit "zero"))]]);
                     (lit "E7", JStr (lit "first")); (lit "e7", JStr (lit "second"))]))
    as (_ & Hp).
  destruct Hp as (ls & Hc & _ & _ & Hw & _); [discriminate|reflexivity|].
  exists ls. split; [exact Hc|]. apply Hw. reflexivity.
Defined.

End CollectLogsFacts.

(** ** The polling controller *)

Section PollingFacts.
Import SheetClient Polling.

(** The test of [load] is the comparison of the trimmed status with RUN
    without regard to case. *)
Lemma notRunning_eqIgnoreCase sheetState :
  notRunning sheetState
  = negb (eqIgnoreCase (trim (default [] (action sheetState))) (lit "RUN")).
Proof.
  unfold notRunning. set (a := trim _).
  destruct (eqIgnoreCase a (lit "RUN")) eqn:E; simpl.
  - apply eqIgnoreCase_toUpperCase in E. rewrite toUpperCase_RUN in E.
    apply bool_decide_eq_false. by intros H.
  - apply bool_decide_eq_true. intros H.
    assert (eqIgnoreCase a (lit "RUN") = true); [|congruence].
    apply eqIgnoreCase_toUpperCase. by rewrite toUpperCase_RUN.
Qed.


Lemma stopPolling_singleTimer delay w :
  singleTimer delay w -> intervals (stopPolling w) = ∅ /\ singleTimer delay (stopPolling w).
Proof.
  unfold singleTimer, stopPolling.
  destruct (timerRef w) as [h|] eqn:E; simpl; rewrite ?E; simpl; intros ->.
  - by rewrite delete_singleton_eq.
  - done.
Qed.

Lemma startPolling_singleTimer delay w :
  singleTimer delay w -> singleTimer delay (startPolling delay w).
Proof.
  intros [H _]%stopPolling_singleTimer. unfold singleTimer, startPolling.
  revert H. generalize (stopPolling w). intros w1 H. simpl.
  by rewrite H, insert_empty.
Qed.

Lemma loadEnd_singleTimer delay result w :
  singleTimer delay w -> singleTimer delay (loadEnd result w).
Proof.
  intros H. unfold loadEnd.
  destruct result as [sheetState|err]; [destruct (notRunning sheetState)|].
  - by apply (stopPolling_singleTimer delay (setState (Some sheetState) w)).
  - done.
  - by apply (stopPolling_singleTimer delay (setError (Some err) w)).
Qed.

(** After every history the window has the timer of the ref and no
    other. *)
Lemma run_singleTimer arg history : singleTimer (pollIntervalOf arg) (run arg history).
Proof.
  unfold run. induction history as [|e history IH] using rev_ind; [done|].
  rewrite foldl_app. simpl.
  destruct e as [| | |h|result]; simpl.
  - by apply startPolling_singleTimer.
  - by apply stopPolling_singleTimer.
  - done.
  - by destruct (bool_decide _).
  - by apply loadEnd_singleTimer.
Qed.

(** The two examples of the specification, from a controller that polls
    with the timer 1. *)
Example loadEnd_run_DONE :
  let w := run None [StartPolling] in
  let fetched (s : string) :=
    Returned {| action := Some (lit s); time := None; imageUrl := None; answer := None;
                log := None; logs := [] |} in
  modeOf w = Polling
  /\ modeOf (loadEnd (fetched "run "%string) w) = Polling
  /\ timerRef (loadEnd (fetched "run "%string) w) = Some 1%positive
  /\ modeOf (loadEnd (fetched "DONE"%string) w) = Idle
  /\ timerRef (loadEnd (fetched "DONE"%string) w) = None
  /\ intervals (loadEnd (fetched "DONE"%string) w) = ∅.
Proof. vm_compute. repeat split. Qed.

(** C1.  When a fetch completes with a state whose status, trimmed and
    compared without regard to case, is RUN, the controller keeps its mode,
    its timer and the timers of the window; otherwise it is Idle, the ref
    is empty and the timer the ref held is cleared, so that after any
    history no timer is left. *)
Theorem loadEnd_status_decides
    (w : Controller) (sheetState : SheetState) (arg : option N) (history : list event) :
  let isRun := eqIgnoreCase (trim (default [] (action sheetState))) (lit "RUN") in
  let w' := loadEnd (Returned sheetState) w in
  let after := loadEnd (Returned sheetState) (run arg history) in
  if isRun
  then modeOf w' = modeOf w /\ polling w' = polling w
       /\ timerRef w' = timerRef w /\ intervals w' = intervals w
  else modeOf w' = Idle /\ polling w' = false /\ timerRef w' = None
       /\ intervals w' = from_option (fun h => delete h (intervals w)) (intervals w) (timerRef w)
       /\ intervals after = ∅.
Proof.
  simpl. unfold loadEnd. rewrite notRunning_eqIgnoreCase.
  destruct (eqIgnoreCase _ _); simpl; [done|].
  assert (timerRef (setState (Some sheetState) w) = timerRef w) as Ht by done.
  unfold modeOf, stopPolling. rewrite Ht.
  split; [done|]. split; [done|].
  split; [by destruct (timerRef w)|]. split; [by destruct (timerRef w)|].
  fold (stopPolling (setState (Some sheetState) (run arg history))).
  apply (stopPolling_singleTimer (pollIntervalOf arg)
           (setState (Some sheetState) (run arg history))).
  apply run_singleTimer.
Qed.


End PollingFacts.

(** * Further properties of the code *)

(** ** Strings and numbers *)

Section MoreStringFacts.

Lemma trimEnd_app_ws s ws :
  Forall (fun c => isWhiteSpace c = true) ws -> trimEnd (s ++ ws) = trimEnd s.
Proof.
  intros Hws. induction s as [|c s IH]; simpl.
  - induction Hws as [|d ws Hd _ IH]; simpl; [done|]. by rewrite IH, Hd.
  - by rewrite IH.
Qed.

Lemma trimEnd_snoc s c : isWhiteSpace c = false -> trimEnd (s ++ [c]) = s ++ [c].
Proof.
  intros Hc. induction s as [|d s IH]; simpl; [by rewrite Hc|].
  rewrite IH. by destruct (s ++ [c]) eqn:E; [destruct s|].
Qed.

(** White space around a string that neither starts nor ends with white
    space is what [trim] removes. *)
Lemma trim_padded pad1 pad2 s c :
  Forall (fun c => isWhiteSpace c = true) pad1 ->
  Forall (fun c => isWhiteSpace c = true) pad2 ->
  headOk (s ++ [c]) -> isWhiteSpace c = false ->
  trim (pad1 ++ (s ++ [c]) ++ pad2) = s ++ [c].
Proof.
  intros H1 H2 Hh Hc. unfold trim.
  rewrite trimStart_app_ws by done.
  rewrite trimStart_id.
  - rewrite trimEnd_app_ws by done. by apply trimEnd_snoc.
  - destruct s; simpl in *; done.
Qed.

Lemma isBlank_trim s : trim s <> [] -> isBlank (trim s) = false.
Proof. intros H. unfold isBlank. apply bool_decide_eq_false. by rewrite trim_idem. Qed.

Lemma isBlank_nonempty s : isBlank s = false -> s <> [].
Proof. unfold isBlank. intros H%bool_decide_eq_false ->. by apply H. Qed.

(** The digits of a decimal numeral read back to its value. *)
Lemma readDigits_uintDigits acc u :
  readDigits acc (uintDigits u) = (uintValue acc u, []).
Proof.
  revert acc. induction u; intros acc; simpl; rewrite ?IHu; try done;
    f_equal; f_equal; lia.
Qed.

Lemma uintValue_of_uint_acc u acc :
  uintValue (Z.pos acc) u = Z.pos (Pos.of_uint_acc u acc).
Proof.
  revert acc. induction u; intros acc; simpl; try done;
    rewrite <- IHu; f_equal; lia.
Qed.

Lemma uintValue_of_uint u : uintValue 0 u = Z.of_N (Pos.of_uint u).
Proof.
  induction u; simpl; try done;
    by rewrite <- uintValue_of_uint_acc.
Qed.

Lemma uintDigits_head u :
  u <> Decimal.Nil -> exists d ds, uintDigits u = d :: ds /\ isDigit d = true.
Proof. destruct u; intros H; try done; simpl; eauto. Qed.

(** A string that starts with a digit is parsed from that digit. *)
Lemma parseInt_digit d ds :
  isDigit d = true -> parseInt (d :: ds) = Some (readDigits 0 (d :: ds)).1.
Proof.
  intros Hd. unfold parseInt.
  assert (48 <= d <= 57)%N as Hr.
  { unfold isDigit in Hd. apply andb_true_iff in Hd as [H1 H2].
    apply N.leb_le in H1, H2. lia. }
  assert (isWhiteSpace d = false) as Hw.
  { unfold isWhiteSpace.
    repeat match goal with
           | |- context [(?a <=? ?b)%N] => destruct (N.leb_spec a b)
           | |- context [(?a =? ?b)%N] => destruct (N.eqb_spec a b)
           end; simpl; try done; lia. }
  simpl trimStart. rewrite Hw.
  assert (match d :: ds with
          | 45%N :: r => (true, r)
          | 43%N :: r => (false, r)
          | _ => (false, d :: ds)
          end = (false, d :: ds)) as ->.
  { assert (d <> 45%N /\ d <> 43%N) as [N1 N2] by lia.
    clear -N1 N2. code_unit_cases d ltac:(try reflexivity; try done). }
  by rewrite Hd.
Qed.

Lemma parseInt_minus_digit d ds :
  isDigit d = true -> parseInt (45%N :: d :: ds) = Some (- (readDigits 0 (d :: ds)).1).
Proof.
  intros Hd. unfold parseInt.
  change (trimStart (45%N :: d :: ds)) with (45%N :: d :: ds).
  cbv beta iota zeta. by rewrite Hd.
Qed.

(** [parseInt(String(n), 10)] is [n] for every integer. *)
Lemma parseInt_numToString n : parseInt (numToString n) = Some n.
Proof.
  destruct n as [|p|p]; [done| |].
  - simpl. destruct (uintDigits_head (Pos.to_uint p)) as (d & ds & E & Hd).
    { apply DecimalPos.Unsigned.to_uint_nonnil. }
    rewrite E, parseInt_digit by done. rewrite <- E, readDigits_uintDigits. simpl.
    by rewrite uintValue_of_uint, DecimalPos.Unsigned.of_to.
  - simpl. destruct (uintDigits_head (Pos.to_uint p)) as (d & ds & E & Hd).
    { apply DecimalPos.Unsigned.to_uint_nonnil. }
    rewrite E, parseInt_minus_digit by done. rewrite <- E, readDigits_uintDigits. simpl.
    by rewrite uintValue_of_uint, DecimalPos.Unsigned.of_to.
Qed.

End MoreStringFacts.

(** ** More on the state normalizer *)

Section MoreNormalizerFacts.
Import Backend.

(** X1.  The normalized image value of a string is a string that, trimmed,
    is no image formula: a formula does not survive normalization. *)
Theorem normalizeImageValue_no_formula_left (s : jsstring) :
  exists u,
    normalizeImageValue (Some (JStr s)) = JStr u
    /\ matchImageFormula (trim u) = None
    /\ ~ exists url, ImageFormula (trim u) url.
Proof.
  assert (exists u, normalizeImageValue (Some (JStr s)) = JStr u
                    /\ matchImageFormula (trim u) = None) as (u & Hu & Hn).
  { unfold normalizeImageValue.
    destruct (matchImageFormula (trim s)) as [url|] eqn:E.
    - exists url. split; [done|].
      destruct (matchImageFormula (trim url)) as [v|] eqn:E'; [|done].
      exfalso. apply matchImageFormula_quote in E'. apply matchImageFormula_capture in E.
      by apply E, trim_subseteq.
    - exists (trim s). by rewrite trim_idem. }
  exists u. split; [done|]. split; [done|].
  intros [url H%matchImageFormula_spec]. congruence.
Qed.

(** X2.  Unwrapping inverts wrapping: an image formula around a non-empty
    text without double quote, in any letter case, with or without sizing
    arguments on the same line and with white space around the formula and
    before the opening quote, normalizes to that text, as it is. *)
Theorem normalizeImageValue_unwraps
    (pad1 pre ws url args pad2 : jsstring) :
  Forall (fun c => isWhiteSpace c = true) pad1 ->
  Forall (fun c => isWhiteSpace c = true) pad2 ->
  toUpperCase pre = lit "=IMAGE(" ->
  Forall (fun c => isWhiteSpace c = true) ws ->
  url <> [] -> 34%N ∉ url ->
  (args = [] \/ exists w, args = 44%N :: w /\ Forall (fun c => isLineTerminator c = false) w) ->
  normalizeImageValue
    (Some (JStr (pad1 ++ (pre ++ ws ++ 34%N :: url ++ 34%N :: args ++ [41%N]) ++ pad2)))
  = JStr url.
Proof.
  intros H1 H2 Hpre Hws Hne Hq Hargs. unfold normalizeImageValue.
  set (core := pre ++ ws ++ 34%N :: url ++ 34%N :: args ++ [41%N]).
  assert (trim (pad1 ++ core ++ pad2) = core) as ->.
  { assert (core = (pre ++ ws ++ 34%N :: url ++ 34%N :: args) ++ [41%N]) as ->.
    { unfold core. by rewrite <- !app_assoc, <- !app_comm_cons, <- !app_assoc. }
    apply trim_padded; try done.
    destruct pre as [|c pre]; [discriminate Hpre|]. simpl.
    injection Hpre as Hc _. unfold toUpperChar in Hc.
    destruct ((97 <=? c)%N && (c <=? 122)%N) eqn:E.
    - apply andb_true_iff in E as [E1 E2]. apply N.leb_le in E1, E2. lia.
    - by subst c. }
  assert (matchImageFormula core = Some url) as ->; [|done].
  apply matchImageFormula_spec. by exists pre, ws, args.
Qed.

Lemma normalizeImageValue_unwraps_witness :
  normalizeImageValue
    (Some (JStr (lit " " ++ (lit "=image(" ++ lit " " ++ 34%N :: lit "http://x/a.png"
                              ++ 34%N :: lit ", 4, 60, 60" ++ [41%N]) ++ lit " ")))
  = JStr (lit "http://x/a.png").
Proof.
  apply (normalizeImageValue_unwraps (lit " ") (lit "=image(") (lit " ")
           (lit "http://x/a.png") (lit ", 4, 60, 60") (lit " ")).
  - by repeat constructor.
  - by repeat constructor.
  - reflexivity.
  - by repeat constructor.
  - discriminate.
  - intros H%list_elem_of_In. vm_compute in H. intuition discriminate.
  - right. exists (lit " 4, 60, 60"). split; [reflexivity|]. by repeat constructor.
Defined.

(** X3.  The logs of the normalized state are exactly the rows whose fifth
    cell, as text, is not blank, each with its index plus 2: no such row is
    left out, and there are at most as many entries as rows. *)
Theorem getState_logs_complete (rows : list (list json)) (e : LogEntry) :
  (e ∈ logs (getStateData rows)
   <-> exists i r, rows !! i = Some r
                   /\ e = {| row := Z.of_nat i + 2; text := logText r |}
                   /\ isBlank (logText r) = false)
  /\ (length (logs (getStateData rows)) <= length rows)%nat.
Proof.
  simpl. split.
  - rewrite list_elem_of_filter, elem_of_lookup_imap. unfold keepEntry, isBlank. split.
    + intros [[_ Ht] (i & r & -> & Hr)]. exists i, r.
      split; [done|]. split; [done|]. by apply bool_decide_eq_false.
    + intros (i & r & Hr & -> & Hb). apply bool_decide_eq_false in Hb. simpl.
      split; [|by exists i, r]. split; [|done]. intros E. apply Hb. by rewrite E.
  - etrans; [apply length_filter|]. by rewrite length_imap.
Qed.

End MoreNormalizerFacts.

(** ** The route of the proxy *)

Section RouteFacts.
Import Backend.

(** The handlers, opened up to the calls of the oracles. *)
Ltac open_route :=
  unfold postSheet, handleGetState, handleUpdateCell, getSheetsClient,
    decodeServiceAccount, cellField;
  repeat (case_match; simplify_eq/=).

(** X4.  Every answer of the route has status 200, 400 or 500, its body has
    the field [success], which is [true] exactly when the status is 200,
    and every other answer is the failure envelope with a message. *)
Theorem postSheet_envelope (cfg : Config) (api : Sheets) (reqBody : option json) :
  let out := postSheet cfg api reqBody in
  (status out.2 = 200%N \/ status out.2 = 400%N \/ status out.2 = 500%N)
  /\ getProp (body out.2) "success" = Some (JBool (bool_decide (status out.2 = 200%N)))
  /\ (status out.2 = 200%N \/ exists m, body out.2 = failure m).
Proof. simpl. open_route; (split; [|split]); eauto. Qed.

(** X5.  The route calls the spreadsheet service at most twice: first the
    authorization, and only when it succeeds one read of the range
    A2:E or one write of the requested cell, on the configured sheet.  An
    answer 200 is never given without that second call. *)
Theorem postSheet_calls (cfg : Config) (api : Sheets) (reqBody : option json) :
  let out := postSheet cfg api reqBody in
  match out.1 with
  | [] => status out.2 <> 200%N
  | [CallAuthorize e k] => authorize api e k <> None /\ status out.2 = 500%N
  | [CallAuthorize e k; CallGet id range] =>
      authorize api e k = None /\ sheetId cfg = Some id
      /\ range = SHEET_NAME cfg ++ lit "!A2:E"
  | [CallAuthorize e k; CallUpdate id range v] =>
      authorize api e k = None /\ sheetId cfg = Some id
      /\ exists cell, cellField reqBody = Some cell
                      /\ range = SHEET_NAME cfg ++ lit "!" ++ cell
                      /\ v = nullish (getProp (bodyOrEmpty reqBody) "value") (JStr [])
  | _ => False
  end.
Proof.
  simpl. open_route; try done; try (split; [congruence|done]);
    try (split; [done|split; [done|]]); eauto.
Qed.

(** X6.  Without a sheet id, without the service account variable, or
    with a variable that does not decode to an account (the parse throws,
    or gives [null]), the route answers every request with a failure and
    makes no call at all. *)
Theorem postSheet_unconfigured (cfg : Config) (api : Sheets) (reqBody : option json) :
  sheetId cfg = None
  \/ SERVICE_ACCOUNT_B64 cfg = None \/ SERVICE_ACCOUNT_B64 cfg = Some []
  \/ (exists b, SERVICE_ACCOUNT_B64 cfg = Some b
                /\ ((exists e, parseAccount api b = inl e) \/ parseAccount api b = inr JNull)) ->
  let out := postSheet cfg api reqBody in
  out.1 = [] /\ (status out.2 = 400%N \/ status out.2 = 500%N).
Proof.
  intros [H|[H|[H|(b & H & [[e He]|He])]]]; simpl; open_route; auto; congruence.
Qed.

Lemma postSheet_unconfigured_witness :
  let cfg := {| SHEET_ID := Some (lit "sheet-1"); SHEET_NAME := lit "Login_NhutPT";
                SERVICE_ACCOUNT_B64 := None |} in
  let out := postSheet cfg (testSheets None) (Some (JObj [(lit "action", JStr (lit "get-state"))])) in
  out.1 = [] /\ (status out.2 = 400%N \/ status out.2 = 500%N).
Proof.
  intros cfg.
  apply (postSheet_unconfigured cfg (testSheets None)). right. left. reflexivity.
Defined.

End RouteFacts.

(** ** More on the reconstruction of the log *)

Section MoreCollectLogsFacts.
Import SheetClient.

Lemma lastWritten_app r a b :
  lastWritten r (a ++ b) = from_option Some (lastWritten r a) (lastWritten r b).
Proof.
  unfold lastWritten. rewrite omap_app, last_app. by destruct (last (omap (writes r) b)).
Qed.

Lemma lastWritten_snoc r calls c :
  lastWritten r (calls ++ [c])
  = match writes r c with
    | Some s => Some s
    | None => lastWritten r calls
    end.
Proof.
  unfold lastWritten. rewrite omap_app. simpl.
  destruct (writes r c); [by rewrite last_snoc | by rewrite app_nil_r].
Qed.

(** [collectLogs] returns the list in strictly ascending order of row that
    holds the last text written for each row. *)
Lemma collectLogs_unique raw (ls : list SheetLogEntry) :
  raw <> JNull ->
  logsThrow raw = false ->
  StronglySorted (fun a b => row a < row b) ls ->
  (forall r t, {| row := r; text := t |} ∈ ls <-> lastWritten r (assignCalls raw) = Some t) ->
  collectLogs raw = Some ls.
Proof.
  intros Hraw Ht Hs Hw. rewrite collectLogs_calls by done. f_equal.
  match goal with |- context [map_to_list ?m] => destruct (sorted_entries m) as [Hs' Hel] end.
  apply strictly_sorted_unique; [done|done|].
  intros [r t]. rewrite Hel, applyCalls_lookup, lookup_empty, Hw.
  by destruct (lastWritten r (assignCalls raw)).
Qed.

(** Blank texts write nothing. *)
Lemma omap_writes_filter r (ls : list SheetLogEntry) :
  omap (writes r) (Wire.entryCall <$> filter (fun e => isBlank (text e) = false) ls)
  = omap (writes r) (Wire.entryCall <$> ls).
Proof.
  induction ls as [|e ls IH]; [done|].
  rewrite filter_cons. destruct (decide (isBlank (text e) = false)) as [Hb|Hb]; csimpl.
  - by rewrite IH.
  - rewrite IH. unfold writes. simpl. by destruct (isBlank (text e)).
Qed.

(** Calls that write the entries of a list in strictly ascending order,
    none of them blank, leave for each row the text of its entry. *)
Lemma lastWritten_entries (ls : list SheetLogEntry) r t :
  StronglySorted (fun a b => row a < row b) ls ->
  Forall (fun e => isBlank (text e) = false) ls ->
  lastWritten r (Wire.entryCall <$> ls) = Some t <-> {| row := r; text := t |} ∈ ls.
Proof.
  unfold lastWritten.
  induction 1 as [|e ls Hs IH He]; intros Hb; csimpl.
  - split; [done|]. by intros ?%elem_of_nil.
  - apply Forall_cons in Hb as [Hb Hbs]. specialize (IH Hbs).
    rewrite elem_of_cons. unfold writes at 1. simpl. rewrite Hb.
    case_bool_decide as Hr.
    + assert (omap (writes r) (Wire.entryCall <$> ls) = []) as Hnil.
      { clear -He Hr. induction ls as [|e' ls IH]; csimpl; [done|].
        apply Forall_cons in He as [He' He]. rewrite (IH He).
        unfold writes. simpl. destruct (isBlank (text e')); [done|].
        case_bool_decide; [lia|done]. }
      rewrite Hnil. simpl. split.
      * intros [= <-]. left. destruct e. simpl in *. by subst.
      * intros [<-|H]; [done|].
        rewrite Forall_forall in He. specialize (He _ H). simpl in *. lia.
    + rewrite IH. split; [by right|]. intros [<-|H]; [done|done].
Qed.

(** Numbering from [k] gives rows in strictly ascending order. *)
Lemma imap_client_sorted {A} (g : nat -> A -> SheetLogEntry) (k : Z) (l : list A) :
  (forall i x, row (g i x) = Z.of_nat i + k) ->
  StronglySorted (fun a b => row a < row b) (imap g l).
Proof.
  revert g k. induction l as [|x l IH]; intros g k Hg; [constructor|].
  rewrite imap_cons. constructor.
  - apply (IH _ (k + 1)). intros i y. simpl. rewrite Hg. lia.
  - apply Forall_forall. intros e (i & y & -> & _)%elem_of_lookup_imap.
    simpl. rewrite !Hg. lia.
Qed.

Lemma lineCalls_imap k lines :
  lineCalls k lines
  = Wire.entryCall <$> imap (fun i line => {| row := Z.of_nat (k + i) + 2; text := line |}) lines.
Proof.
  revert k. induction lines as [|l lines IH]; intros k; [done|].
  rewrite imap_cons, fmap_cons. cbn [lineCalls]. rewrite IH.
  unfold Wire.entryCall at 2. cbn [row text]. rewrite Nat.add_0_r. do 2 f_equal.
  apply imap_ext. intros i x _. simpl. do 2 f_equal. lia.
Qed.

Lemma arrayCallsFrom_strings k (ss : list jsstring) :
  arrayCallsFrom k (JStr <$> ss)
  = Wire.entryCall <$> imap (fun i s => {| row := Z.of_nat (k + i) + 2; text := s |}) ss.
Proof.
  revert k. induction ss as [|s ss IH]; intros k; [done|].
  rewrite imap_cons, !fmap_cons. cbn [arrayCallsFrom itemCalls app]. rewrite IH.
  unfold Wire.entryCall at 2. cbn [row text]. rewrite Nat.add_0_r. do 2 f_equal.
  apply imap_ext. intros i x _. simpl. do 2 f_equal. lia.
Qed.

(** No string item throws. *)
Lemma arrayThrowsFrom_strings k (ss : list jsstring) :
  arrayThrowsFrom k (JStr <$> ss) = false.
Proof. revert k. induction ss as [|s ss IH]; intros k; [done|]. apply IH. Qed.

(** X7.  A log given as one multi-line string is split at the line breaks
    (LF or CR LF); the lines are trimmed, the empty ones dropped, and the
    remaining ones numbered 2, 3, 4, ... in order: the row of a line counts
    the non-empty lines before it, not its position in the string. *)
Theorem collectLogs_multiline_string (s : jsstring) :
  collectLogs (JObj [(lit "log", JStr s)])
  = Some (imap (fun i line => {| row := Z.of_nat i + 2; text := line |})
            (filter (fun line => line <> []) (trim <$> splitLines s))).
Proof.
  set (lines := filter (fun line => line <> []) (trim <$> splitLines s)).
  assert (assignCalls (JObj [(lit "log", JStr s)]) = lineCalls 0 lines ++ []) as Hcalls
    by reflexivity.
  rewrite app_nil_r, lineCalls_imap in Hcalls. simpl in Hcalls.
  apply collectLogs_unique; [done|done| |].
  - by apply (imap_client_sorted _ 2).
  - intros r t. rewrite Hcalls. symmetry. apply lastWritten_entries.
    + by apply (imap_client_sorted _ 2).
    + apply Forall_forall. intros e (i & l & -> & Hl)%elem_of_lookup_imap. simpl.
      apply list_elem_of_lookup_2 in Hl.
      apply list_elem_of_filter in Hl as [Hne (x & -> & _)%list_elem_of_fmap].
      by apply isBlank_trim.
Qed.

(** X8.  A log given as an array of strings keeps the position of each
    string: the string at index i is the entry of row i + 2, and the blank
    strings are left out without renumbering the others. *)
Theorem collectLogs_string_array (ss : list jsstring) :
  collectLogs (JObj [(lit "logs", JArr (JStr <$> ss))])
  = Some (filter (fun e => isBlank (text e) = false)
            (imap (fun i s => {| row := Z.of_nat i + 2; text := s |}) ss)).
Proof.
  assert (assignCalls (JObj [(lit "logs", JArr (JStr <$> ss))])
          = arrayCallsFrom 0 (JStr <$> ss) ++ []) as Hcalls by reflexivity.
  rewrite app_nil_r, arrayCallsFrom_strings in Hcalls. simpl in Hcalls.
  assert (StronglySorted (fun a b => row a < row b)
            (filter (fun e => isBlank (text e) = false)
               (imap (fun i s => {| row := Z.of_nat i + 2; text := s |}) ss))) as Hs.
  { apply StronglySorted_filter_keep. by apply (imap_client_sorted _ 2). }
  apply collectLogs_unique; [done| |done|].
  { unfold logsThrow.
    change (getProp (JObj [(lit "logs", JArr (JStr <$> ss))]) "logs")
      with (Some (JArr (JStr <$> ss))).
    change (getProp (JObj [(lit "logs", JArr (JStr <$> ss))]) "log") with (@None json).
    unfold maybeArrayThrows. by rewrite arrayThrowsFrom_strings. }
  intros r t. rewrite Hcalls. unfold lastWritten. rewrite <- omap_writes_filter.
  symmetry. apply lastWritten_entries; [done|].
  apply Forall_forall. by intros e [He _]%list_elem_of_filter.
Qed.

End MoreCollectLogsFacts.

(** ** The row of an item of a log array *)

Section RowCandidateFacts.
Import SheetClient.

Lemma truthyNum_Some n z : truthyNum n = Some z -> z <> 0.
Proof.
  destruct n as [m|]; [|done]. simpl. destruct (Z.eqb_spec m 0); [done|]. by intros [= <-].
Qed.

Lemma truthyNum_nonzero z : z <> 0 -> truthyNum (Some z) = Some z.
Proof. intros H. simpl. by destruct (Z.eqb_spec z 0). Qed.

(** X9.  The row of an object in a log array: its numeric [row] when that
    is not 0; else the integer its string [row] starts with, when not 0;
    else, without [row], its numeric [index] plus 2 (but for index -2); and
    without [row] and [index] its position in the array plus 2, as for a
    string item.  The row is never 0. *)
Theorem rowCandidate_cases (obj : json) (index : nat) :
  (forall r, getProp obj "row" = Some (JNum r) -> r <> 0 -> rowCandidate obj index = r)
  /\ (forall s r, getProp obj "row" = Some (JStr s) -> parseInt s = Some r -> r <> 0 ->
        rowCandidate obj index = r)
  /\ (forall k, getProp obj "row" = None -> getProp obj "index" = Some (JNum k) -> k <> -2 ->
        rowCandidate obj index = k + 2)
  /\ (getProp obj "row" = None ->
      getProp obj "index" = None \/ getProp obj "index" = Some JNull ->
      rowCandidate obj index = Z.of_nat index + 2)
  /\ rowCandidate obj index <> 0.
Proof.
  unfold rowCandidate. repeat split.
  - intros r -> Hr. by rewrite truthyNum_nonzero.
  - intros s r -> Hs Hr. change (toString (Some (JStr s))) with s.
    by rewrite Hs, truthyNum_nonzero.
  - intros k -> -> Hk.
    change (parseInt (toString None)) with (@None Z).
    by rewrite truthyNum_nonzero by lia.
  - intros -> Hi.
    change (parseInt (toString None)) with (@None Z).
    assert (nullish (getProp obj "index") (JNum (Z.of_nat index)) = JNum (Z.of_nat index)) as ->.
    { by destruct Hi as [->| ->]. }
    change (jsonToString (JNum (Z.of_nat index))) with (numToString (Z.of_nat index)).
    rewrite parseInt_numToString.
    change ((fun n => n + 2) <$> Some (Z.of_nat index)) with (Some (Z.of_nat index + 2)).
    rewrite truthyNum_nonzero by lia.
    by destruct Hi as [->| ->].
  - repeat match goal with
           | |- context [truthyNum ?n] =>
               let E := fresh "E" in
               destruct (truthyNum n) eqn:E; [apply truthyNum_Some in E|]
           end; simpl; lia.
Qed.

Lemma rowCandidate_cases_witness :
  rowCandidate (JObj [(lit "row", JNum 7); (lit "text", JStr (lit "seven"))]) 0 = 7.
Proof.
  destruct (rowCandidate_cases (JObj [(lit "row", JNum 7); (lit "text", JStr (lit "seven"))]) 0)
    as (H & _).
  apply H; [reflexivity | discriminate].
Defined.

End RowCandidateFacts.

(** ** The client in front of the proxy *)

Section WireFacts.
Import SheetClient.

Lemma stateResponse_data d :
  Backend.stateResponse d
  = JObj [(lit "success", JBool true); (lit "data", Wire.stateData d)].
Proof. reflexivity. Qed.

(** The route on the two bodies the client sends. *)
Lemma postSheet_get_state cfg api :
  Backend.postSheet cfg api (Some (requestBody (lit "get-state") []))
  = Backend.handleGetState cfg api.
Proof. reflexivity. Qed.

Lemma postSheet_update_cell cfg api (cell : jsstring) (value : json) :
  Backend.postSheet cfg api
    (Some (requestBody (lit "update-cell") [(lit "cell", JStr cell); (lit "value", value)]))
  = Backend.handleUpdateCell cfg api
      (Some (JObj [(lit "action", JStr (lit "update-cell")); (lit "cell", JStr cell);
                   (lit "value", value)])).
Proof. reflexivity. Qed.

(** The envelope of every answer of the route. *)
Lemma postSheet_envelope_cases cfg api reqBody :
  let out := Backend.postSheet cfg api reqBody in
  (Backend.status out.2 = 200%N
   /\ exists props, Backend.body out.2 = JObj ((lit "success", JBool true) :: props))
  \/ ((Backend.status out.2 = 400%N \/ Backend.status out.2 = 500%N)
      /\ exists m, Backend.body out.2 = Backend.failure m).
Proof.
  simpl.
  unfold Backend.postSheet, Backend.handleGetState, Backend.handleUpdateCell.
  repeat (case_match; simplify_eq/=); eauto 10.
Qed.

(** The entries of the logs of the proxy: rows from 2 on, texts not
    blank. *)
Lemma backend_logs_entries rows :
  let ls := Wire.clientEntry <$> Backend.logs (Backend.getStateData rows) in
  StronglySorted (fun a b => row a < row b) ls
  /\ Forall (fun e => isBlank (text e) = false) ls
  /\ Forall (fun e => Backend.row e <> 0 /\ Backend.text e <> [])
       (Backend.logs (Backend.getStateData rows)).
Proof.
  simpl. repeat split.
  - apply (StronglySorted_fmap _ (fun a b => Backend.row a < Backend.row b)); [done|].
    apply StronglySorted_filter_keep. by apply (imap_rows_sorted _ 2).
  - apply Forall_fmap, Forall_forall. intros e [[_ H] _]%list_elem_of_filter. simpl.
    unfold isBlank. by apply bool_decide_eq_false.
  - apply Forall_forall.
    intros e [[H _] (i & r & -> & _)%elem_of_lookup_imap]%list_elem_of_filter.
    simpl in *. split; [lia|done].
Qed.

Lemma arrayCallsFrom_canonical k (ls : list Backend.LogEntry) :
  Forall (fun e => Backend.row e <> 0 /\ Backend.text e <> []) ls ->
  arrayCallsFrom k
    ((fun e => JObj [(lit "row", JNum (Backend.row e)); (lit "text", JStr (Backend.text e))])
     <$> ls)
  = Wire.entryCall <$> (Wire.clientEntry <$> ls).
Proof.
  revert k. induction ls as [|[r t] ls IH]; intros k Hls; [done|].
  apply Forall_cons in Hls as [[Hr Ht] Hls]. simpl in Hr, Ht.
  rewrite !fmap_cons. cbn [arrayCallsFrom Backend.row Backend.text].
  rewrite (IH _ Hls). clear IH.
  destruct t as [|c t]; [done|].
  assert (itemCalls k (JObj [(lit "row", JNum r); (lit "text", JStr (c :: t))])
          = [(rowCandidate (JObj [(lit "row", JNum r); (lit "text", JStr (c :: t))]) k,
              JStr (c :: t))]) as -> by reflexivity.
  assert (rowCandidate (JObj [(lit "row", JNum r); (lit "text", JStr (c :: t))]) k = r) as ->.
  { unfold rowCandidate.
    change (getProp (JObj [(lit "row", JNum r); (lit "text", JStr (c :: t))]) "row")
      with (Some (JNum r)).
    cbv beta iota. by rewrite truthyNum_nonzero. }
  done.
Qed.

(** No item of the canonical shape throws: a numeric [row] is never
    converted to an object. *)
Lemma arrayThrowsFrom_canonical k (ls : list Backend.LogEntry) :
  arrayThrowsFrom k
    ((fun e => JObj [(lit "row", JNum (Backend.row e)); (lit "text", JStr (Backend.text e))])
     <$> ls)
  = false.
Proof.
  revert k. induction ls as [|[r t] ls IH]; intros k; [done|].
  rewrite fmap_cons. cbn [arrayThrowsFrom Backend.row Backend.text]. rewrite IH, orb_false_r.
  unfold itemThrows, rowCandidateThrows.
  change (getProp (JObj [(lit "row", JNum r); (lit "text", JStr t)]) "row")
    with (Some (JNum r)).
  change (getProp (JObj [(lit "row", JNum r); (lit "text", JStr t)]) "index")
    with (@None json).
  cbv beta iota zeta. apply andb_false_intro2.
  destruct (truthyNum (Some r)); [done|]. cbn [stringThrows orb nullish].
  by destruct (orElse _ _).
Qed.

(** A first-row log cell that the key E2 would write is the entry of row
    2 of the logs. *)
Lemma E2_in_logs rows s :
  Backend.E2 (Backend.getStateData rows) = JStr s -> isBlank s = false ->
  {| row := 2; text := s |} ∈ Wire.clientEntry <$> Backend.logs (Backend.getStateData rows).
Proof.
  intros HE Hb. pose proof (isBlank_nonempty _ Hb) as Hne.
  destruct rows as [|r0 rows]; simpl in HE; [by injection HE as <-|].
  assert (r0 !! 4%nat = Some (JStr s)) as Hc.
  { destruct (r0 !! 4%nat) as [[]|]; simpl in HE; try done; congruence. }
  apply list_elem_of_fmap. exists {| Backend.row := 2; Backend.text := s |}.
  split; [done|]. simpl. rewrite filter_cons.
  assert (Backend.logText r0 = s) as Ht by (unfold Backend.logText; by rewrite Hc).
  rewrite Ht. unfold isBlank in Hb. apply bool_decide_eq_false in Hb.
  rewrite decide_True by done. left.
Qed.

(** The client reconstructs from the [data] of the proxy the logs of the
    proxy. *)
Lemma collectLogs_stateData rows :
  collectLogs (Wire.stateData (Backend.getStateData rows))
  = Some (Wire.clientEntry <$> Backend.logs (Backend.getStateData rows)).
Proof.
  destruct (backend_logs_entries rows) as (Hs & Hb & Hrt).
  pose proof (E2_in_logs rows) as HE2.
  cbv zeta in Hs, Hb. revert Hs Hb Hrt HE2.
  generalize (Backend.getStateData rows). intros d Hs Hb Hrt HE2.
  assert (assignCalls (Wire.stateData d)
          = arrayCallsFrom 0
              ((fun e => JObj [(lit "row", JNum (Backend.row e));
                               (lit "text", JStr (Backend.text e))]) <$> Backend.logs d)
            ++ [(2, Backend.E2 d)]) as Hcalls by reflexivity.
  rewrite arrayCallsFrom_canonical in Hcalls by done.
  assert (logsThrow (Wire.stateData d)
          = arrayThrowsFrom 0
              ((fun e => JObj [(lit "row", JNum (Backend.row e));
                               (lit "text", JStr (Backend.text e))]) <$> Backend.logs d)
            || false) as Hthrows by reflexivity.
  rewrite arrayThrowsFrom_canonical in Hthrows.
  apply collectLogs_unique; [done|done|done|].
  intros r t. rewrite Hcalls, lastWritten_snoc. unfold writes. cbn [fst snd].
  destruct (Backend.E2 d) as [| | |s| |];
    try (symmetry; by apply lastWritten_entries).
  destruct (isBlank s) eqn:Hbs; [symmetry; by apply lastWritten_entries|].
  case_bool_decide as Hr; [|symmetry; by apply lastWritten_entries].
  subst r. specialize (HE2 s eq_refl Hbs).
  split.
  - intros Ht. apply lastWritten_entries in Ht; [|done|done].
    apply lastWritten_entries in HE2; [|done|done]. congruence.
  - by intros [= <-].
Qed.

(** X10.  Without the endpoint variable, or with an empty one, the three
    calls of the client throw the same descriptive error and send
    nothing. *)
Theorem client_unconfigured
    (net : Request -> option Response) (env : option jsstring) (answer : jsstring) :
  env = None \/ env = Some [] ->
  let err := Error (lit
    "Missing environment variable VITE_SHEET_WEBAPP_URL pointing to the sheet API endpoint.") in
  fetchSheetState net env = ([], Thrown err)
  /\ triggerRun net env = ([], Thrown err)
  /\ submitAnswer net env answer = ([], Thrown err).
Proof. by intros [-> | ->]. Qed.

Lemma client_unconfigured_witness :
  fetchSheetState (fun _ => None) None
  = ([], Thrown (Error (lit
       "Missing environment variable VITE_SHEET_WEBAPP_URL pointing to the sheet API endpoint."))).
Proof.
  apply (client_unconfigured (fun _ => None) None []). by left.
Defined.

(** X11.  [fetchSheetState] fails in two ways only.  It throws what its
    request throws; and once the request has returned, it throws a
    [TypeError] exactly when the log cannot be reconstructed, that is when
    an item of [logs] or [log] has a row that cannot be converted to a
    string.  Otherwise it returns a state, whose logs are those of
    [collectLogs]. *)
Theorem fetchSheetState_failures
    (net : Request -> option Response) (env : option jsstring) :
  match sheetRequest net env (lit "get-state") [] with
  | (sent, Thrown e) => fetchSheetState net env = (sent, Thrown e)
  | (sent, Returned data) =>
      data <> JNull
      /\ if logsThrow data
         then collectLogs data = None
              /\ fetchSheetState net env = (sent, Thrown TypeError)
         else exists st,
                fetchSheetState net env = (sent, Returned st)
                /\ collectLogs data = Some (logs st)
  end.
Proof.
  unfold fetchSheetState.
  destruct (sheetRequest net env (lit "get-state") []) as [sent [data|e]] eqn:E; [|done].
  apply sheetRequest_not_null in E. split; [done|].
  pose proof (collectLogs_None data) as Hn.
  destruct (logsThrow data).
  - assert (collectLogs data = None) as -> by (apply Hn; by right). done.
  - destruct (collectLogs data) as [ls|]; [by eexists|].
    destruct Hn as [Hn _]. by destruct (Hn eq_refl).
Qed.

(** What the client makes of an answer of the route. *)
Lemma sheetRequest_through_proxy cfg api reason u action payload :
  u <> [] ->
  let resp := (Backend.postSheet cfg api (Some (requestBody action payload))).2 in
  (sheetRequest (Wire.proxy cfg api reason) (Some u) action payload).2
  = if bool_decide (Backend.status resp = 200%N)
    then Returned (nullish (getProp (Backend.body resp) "data") (Backend.body resp))
    else Thrown (Error (lit "Sheet request failed: "
                        ++ numToString (Z.of_N (Backend.status resp))
                        ++ lit " " ++ reason (Backend.status resp))).
Proof.
  intros Hu. rewrite sheetRequest_sent by done. cbn [snd Wire.proxy body postRequest].
  destruct (postSheet_envelope_cases cfg api (Some (requestBody action payload)))
    as [[Hs [props Hb]]|[Hs [m Hb]]]; cbv zeta in Hs, Hb.
  - rewrite Hs, Hb. reflexivity.
  - unfold readResponse, ok. cbn [status statusText].
    destruct Hs as [-> | ->]; reflexivity.
Qed.

(** X12.  In front of the proxy the client never shows the message of the
    proxy: when the route answers a failure, whatever its message, the
    request throws an error that names only the status and its reason
    phrase; when the route answers 200 the request returns, and not
    [null]. *)
Theorem proxy_failure_message
    (cfg : Backend.Config) (api : Backend.Sheets) (reason : N -> jsstring)
    (u action : jsstring) (payload : list (jsstring * json)) :
  u <> [] ->
  let resp := (Backend.postSheet cfg api (Some (requestBody action payload))).2 in
  let out := (sheetRequest (Wire.proxy cfg api reason) (Some u) action payload).2 in
  (Backend.status resp = 200%N -> exists v, out = Returned v /\ v <> JNull)
  /\ (Backend.status resp <> 200%N ->
      (Backend.status resp = 400%N \/ Backend.status resp = 500%N)
      /\ out = Thrown (Error (lit "Sheet request failed: "
                              ++ numToString (Z.of_N (Backend.status resp))
                              ++ lit " " ++ reason (Backend.status resp)))).
Proof.
  intros Hu resp out. subst out. rewrite sheetRequest_through_proxy by done. fold resp.
  destruct (postSheet_envelope_cases cfg api (Some (requestBody action payload)))
    as [[Hs [props Hb]]|[Hs [m Hb]]]; cbv zeta in Hs, Hb; fold resp in Hs, Hb.
  - split; [|done]. intros _. rewrite Hs, Hb. eexists. split; [reflexivity|].
    by apply nullish_not_null.
  - split; [intros H; destruct Hs; congruence|]. intros Hn. split; [done|].
    by rewrite bool_decide_false.
Qed.

Lemma proxy_failure_message_witness :
  (sheetRequest (Wire.proxy Backend.testConfig (Backend.testSheets None) (fun _ => lit "Bad Request"))
     (Some (lit "http://localhost:4000/sheet")) (lit "bogus") []).2
  = Thrown (Error (lit "Sheet request failed: 400 Bad Request")).
Proof.
  destruct (proxy_failure_message Backend.testConfig (Backend.testSheets None)
              (fun _ => lit "Bad Request") (lit "http://localhost:4000/sheet") (lit "bogus") [])
    as [_ H]; [discriminate|].
  destruct H as [_ H]; [vm_compute; discriminate|]. exact H.
Defined.

(** X13.  A client in front of a proxy that reads the sheet receives the
    state the proxy normalized: the logs are the logs of the proxy, entry
    for entry, and each text field is the cell of the proxy when that is a
    string and undefined otherwise ([imageUrl] falling back to [C2]). *)
Theorem fetchSheetState_through_proxy
    (cfg : Backend.Config) (api : Backend.Sheets) (reason : N -> jsstring)
    (u id : jsstring) (values : option (list (list json))) :
  u <> [] ->
  Backend.sheetId cfg = Some id ->
  (Backend.getSheetsClient cfg api).2 = None ->
  Backend.values_get api id (Backend.SHEET_NAME cfg ++ lit "!A2:E") = inr values ->
  let d := Backend.getStateData (default [] values) in
  (fetchSheetState (Wire.proxy cfg api reason) (Some u)).2
  = Returned
      {| action := getString (Some (Backend.A2 d));
         time := getString (Some (Backend.B2 d));
         imageUrl := orString (getString (Some (Backend.imageUrl d)))
                       (getString (Some (Backend.C2 d)));
         answer := getString (Some (Backend.D2 d));
         log := getString (Some (Backend.E2 d));
         logs := Wire.clientEntry <$> Backend.logs d |}.
Proof.
  intros Hu Hid Hauth Hget d.
  pose proof (sheetRequest_through_proxy cfg api reason u (lit "get-state") [] Hu) as Hreq.
  cbv zeta in Hreq. rewrite postSheet_get_state in Hreq.
  assert (Backend.handleGetState cfg api
          = ((Backend.getSheetsClient cfg api).1
             ++ [Backend.CallGet id (Backend.SHEET_NAME cfg ++ lit "!A2:E")],
             {| Backend.status := 200; Backend.body := Backend.stateResponse d |})) as Hh.
  { unfold Backend.handleGetState. rewrite Hid.
    destruct (Backend.getSheetsClient cfg api) as [calls [e|]]; [done|]. by rewrite Hget. }
  rewrite Hh in Hreq. cbn [snd Backend.status Backend.body] in Hreq.
  rewrite stateResponse_data in Hreq.
  change (Returned (Wire.stateData d)) with (@Returned json (Wire.stateData d)) in Hreq.
  assert ((sheetRequest (Wire.proxy cfg api reason) (Some u) (lit "get-state") []).2
          = Returned (Wire.stateData d)) as Hreq' by exact Hreq.
  unfold fetchSheetState.
  destruct (sheetRequest (Wire.proxy cfg api reason) (Some u) (lit "get-state") [])
    as [sent out]. simpl in Hreq'. subst out.
  unfold d. rewrite collectLogs_stateData. cbn [snd]. f_equal.
  fold d. unfold Wire.stateData.
  assert (Backend.C3 d = Backend.imageUrl d) as HC3 by reflexivity.
  f_equal; try reflexivity.
  change (getProp _ "imageUrl") with (Some (Backend.imageUrl d)).
  change (getProp _ "C3") with (Some (Backend.C3 d)).
  change (getProp _ "C2") with (Some (Backend.C2 d)).
  rewrite HC3. by destruct (getString (Some (Backend.imageUrl d))).
Qed.

Lemma fetchSheetState_through_proxy_witness :
  let api := {| Backend.parseAccount := fun _ => inr (JObj []);
                Backend.authorize := fun _ _ => None;
                Backend.values_get := fun _ _ =>
                  inr (Some [[JStr (lit "RUN"); JNum 5; JStr (lit "u"); JNum 123; JStr (lit "hello")]]);
                Backend.values_update := fun _ _ _ => None |} in
  (fetchSheetState (Wire.proxy Backend.testConfig api (fun _ => lit "OK"))
     (Some (lit "http://localhost:4000/sheet"))).2
  = Returned {| action := Some (lit "RUN"); time := None; imageUrl := Some (lit "u");
                answer := None; log := Some (lit "hello");
                logs := [{| row := 2; text := lit "hello" |}] |}.
Proof.
  intros api.
  exact (fetchSheetState_through_proxy Backend.testConfig api (fun _ => lit "OK")
           (lit "http://localhost:4000/sheet") (lit "sheet-1")
           (Some [[JStr (lit "RUN"); JNum 5; JStr (lit "u"); JNum 123; JStr (lit "hello")]])
           ltac:(discriminate) eq_refl eq_refl eq_refl).
Defined.

(** X14.  In front of a proxy whose service accepts the account,
    [triggerRun] makes the proxy write RUN to the cell A2 and [submitAnswer]
    makes it write the answer to the cell D2, each with a single write on
    the configured sheet; the call returns when the service accepts the
    write and throws the status error when it refuses. *)
Theorem writes_through_proxy
    (cfg : Backend.Config) (api : Backend.Sheets) (reason : N -> jsstring)
    (u id answer : jsstring) :
  u <> [] ->
  Backend.sheetId cfg = Some id ->
  (Backend.getSheetsClient cfg api).2 = None ->
  let net := Wire.proxy cfg api reason in
  let write (cell : string) (value : jsstring) (sent : list Request) (out : outcome unit) :=
    exists req,
      sent = [req]
      /\ (Backend.postSheet cfg api (Some (body req))).1
         = (Backend.getSheetsClient cfg api).1
           ++ [Backend.CallUpdate id (Backend.SHEET_NAME cfg ++ lit "!" ++ lit cell) (JStr value)]
      /\ out = match Backend.values_update api id
                       (Backend.SHEET_NAME cfg ++ lit "!" ++ lit cell) (JStr value) with
               | None => Returned tt
               | Some _ =>
                   Thrown (Error (lit "Sheet request failed: 500 " ++ reason 500%N))
               end in
  write "A2"%string (lit "RUN") (triggerRun net (Some u)).1 (triggerRun net (Some u)).2
  /\ write "D2"%string answer (submitAnswer net (Some u) answer).1
       (submitAnswer net (Some u) answer).2.
Proof.
  intros Hu Hid Hauth net write.
  assert (forall (cell : string) (value : jsstring),
    let payload := [(lit "cell", JStr (lit cell)); (lit "value", JStr value)] in
    (Backend.postSheet cfg api (Some (requestBody (lit "update-cell") payload)))
    = ((Backend.getSheetsClient cfg api).1
       ++ [Backend.CallUpdate id (Backend.SHEET_NAME cfg ++ lit "!" ++ lit cell) (JStr value)],
       match Backend.values_update api id
               (Backend.SHEET_NAME cfg ++ lit "!" ++ lit cell) (JStr value) with
       | None => {| Backend.status := 200;
                    Backend.body := JObj [(lit "success", JBool true)] |}
       | Some e =>
           {| Backend.status := 500;
              Backend.body :=
                Backend.failure (Backend.errorMessage e "Unknown error when updating sheet") |}
       end)) as Hpost.
  { intros cell value payload. subst payload. rewrite postSheet_update_cell.
    unfold Backend.handleUpdateCell. rewrite Hid.
    change (getProp (Backend.bodyOrEmpty _) "cell") with (Some (JStr (lit cell))).
    change (getProp (Backend.bodyOrEmpty _) "value") with (Some (JStr value)).
    cbv beta iota.
    destruct (Backend.getSheetsClient cfg api) as [calls [e|]]; [done|].
    change (nullish (Some (JStr value)) (JStr [])) with (JStr value).
    by destruct (Backend.values_update api id _ _). }
  assert (forall (cell : string) (value : jsstring),
    let payload := [(lit "cell", JStr (lit cell)); (lit "value", JStr value)] in
    sheetRequest net (Some u) (lit "update-cell") payload
    = ([postRequest u (lit "update-cell") payload],
       match Backend.values_update api id
               (Backend.SHEET_NAME cfg ++ lit "!" ++ lit cell) (JStr value) with
       | None => Returned (JObj [(lit "success", JBool true)])
       | Some _ => Thrown (Error (lit "Sheet request failed: 500 " ++ reason 500%N))
       end)) as Hreq.
  { intros cell value payload.
    pose proof (sheetRequest_through_proxy cfg api reason u (lit "update-cell") payload Hu) as H.
    cbv zeta in H. fold net in H. subst payload. rewrite Hpost in H.
    rewrite sheetRequest_sent in * by done.
    cbn [snd] in H. rewrite H.
    by destruct (Backend.values_update api id _ _). }
  split.
  - unfold write, triggerRun. rewrite Hreq.
    exists (postRequest u (lit "update-cell")
              [(lit "cell", JStr (lit "A2")); (lit "value", JStr (lit "RUN"))]).
    cbn [body postRequest]. rewrite Hpost.
    by destruct (Backend.values_update api id _ _).
  - unfold write, submitAnswer. rewrite Hreq.
    exists (postRequest u (lit "update-cell")
              [(lit "cell", JStr (lit "D2")); (lit "value", JStr answer)]).
    cbn [body postRequest]. rewrite Hpost.
    by destruct (Backend.values_update api id _ _).
Qed.

Lemma writes_through_proxy_witness :
  exists req,
    (submitAnswer (Wire.proxy Backend.testConfig (Backend.testSheets None) (fun _ => lit "OK"))
       (Some (lit "http://localhost:4000/sheet")) (lit "123")).1 = [req]
    /\ (submitAnswer (Wire.proxy Backend.testConfig (Backend.testSheets None) (fun _ => lit "OK"))
          (Some (lit "http://localhost:4000/sheet")) (lit "123")).2 = Returned tt.
Proof.
  destruct (writes_through_proxy Backend.testConfig (Backend.testSheets None)
              (fun _ => lit "OK") (lit "http://localhost:4000/sheet") (lit "sheet-1") (lit "123"))
    as [_ (req & Hs & _ & Ho)]; [discriminate | reflexivity | reflexivity |].
  exists req. split; [exact Hs | exact Ho].
Defined.

End WireFacts.

(** ** More on the polling controller *)

Section MorePollingFacts.
Import SheetClient Polling.

Lemma step_singleTimer arg w e :
  singleTimer (pollIntervalOf arg) w -> singleTimer (pollIntervalOf arg) (step arg w e).
Proof.
  intros H. destruct e as [| | |h|result]; simpl.
  - by apply startPolling_singleTimer.
  - by apply stopPolling_singleTimer.
  - done.
  - by destruct (bool_decide _).
  - by apply loadEnd_singleTimer.
Qed.

Lemma stopPolling_refInvariant w : refInvariant (stopPolling w).
Proof. unfold refInvariant, stopPolling. by_timerRef w. Qed.

Lemma step_refInvariant arg w e : refInvariant w -> refInvariant (step arg w e).
Proof.
  intros [Hp Hh]. destruct e as [| | |h|result]; simpl.
  - unfold refInvariant, startPolling. simpl. split; [done|].
    intros h [= <-]. unfold stopPolling. destruct (timerRef w); simpl; lia.
  - apply stopPolling_refInvariant.
  - by split.
  - destruct (bool_decide (is_Some (intervals w !! h))); by split.
  - unfold loadEnd. destruct result as [sheetState|err].
    + destruct (notRunning sheetState); [apply stopPolling_refInvariant|by split].
    + apply stopPolling_refInvariant.
Qed.

Lemma run_refInvariant arg history : refInvariant (run arg history).
Proof.
  unfold run. induction history as [|e history IH] using rev_ind.
  - split; [done|]. by intros h.
  - rewrite foldl_app. by apply step_refInvariant.
Qed.

(** X15.  When a fetch fails, after any history, the error is recorded,
    the controller is Idle with an empty ref and no timer left, [loading]
    is off, and the last state fetched is kept. *)
Theorem loadEnd_error (arg : option N) (history : list event) (err : exn) :
  let w := run arg history in
  let w' := loadEnd (Thrown err) w in
  error w' = Some err
  /\ modeOf w' = Idle /\ timerRef w' = None /\ intervals w' = ∅
  /\ loading w' = false
  /\ state w' = state w.
Proof.
  intros w w'. subst w'. unfold loadEnd.
  destruct (stopPolling_singleTimer (pollIntervalOf arg) (setError (Some err) w)) as [Hi _].
  { apply (run_singleTimer arg history). }
  cbn [intervals setLoading]. rewrite Hi.
  unfold modeOf, stopPolling. by_timerRef (setError (Some err) w).
Qed.

(** X16.  After any history the flag [polling] is on exactly when the ref
    holds a timer, and then that timer is active in the window with the
    interval of the hook, under a handle that [setInterval] has handed
    out. *)
Theorem polling_flag_and_timer (arg : option N) (history : list event) :
  let w := run arg history in
  (polling w = true <-> is_Some (timerRef w))
  /\ match timerRef w with
     | Some h => intervals w = {[h := pollIntervalOf arg]} /\ (h < nextHandle w)%positive
     | None => intervals w = ∅
     end.
Proof.
  intros w. destruct (run_refInvariant arg history) as [Hp Hh]. fold w in Hp, Hh.
  pose proof (run_singleTimer arg history) as Hs. fold w in Hs. unfold singleTimer in Hs.
  split.
  - rewrite Hp. apply bool_decide_eq_true.
  - destruct (timerRef w) as [h|]; [|done]. split; [done|]. by apply Hh.
Qed.

(** X17.  After any history, an event starts at most one fetch, and it
    starts one only if it is a call of [startPolling] or of [reload], or
    the tick of the timer of the ref while the controller polls: a timer
    that was cleared fetches nothing, and a completion fetches nothing. *)
Theorem fetch_only_on_cause (arg : option N) (history : list event) (e : event) :
  let w := run arg history in
  fetches (step arg w e) = fetches w
  \/ (fetches (step arg w e) = S (fetches w)
      /\ (e = StartPolling \/ e = Reload
          \/ exists h, e = Tick h /\ timerRef w = Some h /\ polling w = true)).
Proof.
  intros w. destruct (run_refInvariant arg history) as [Hp _]. fold w in Hp.
  pose proof (run_singleTimer arg history) as Hs. fold w in Hs. unfold singleTimer in Hs.
  destruct e as [| | |h|result]; simpl.
  - right. split; [|by left]. unfold startPolling, stopPolling. by destruct (timerRef w).
  - left. unfold stopPolling. by destruct (timerRef w).
  - right. split; [done|]. right. by left.
  - destruct (bool_decide (is_Some (intervals w !! h))) eqn:Hh; [|by left].
    apply bool_decide_eq_true in Hh. right. split; [done|]. do 2 right. exists h.
    rewrite Hs in Hh. destruct (timerRef w) as [h'|]; simpl in Hh.
    + destruct (decide (h' = h)) as [->|Hne].
      * split; [done|]. split; [done|]. rewrite Hp. by apply bool_decide_eq_true.
      * rewrite lookup_singleton_ne in Hh by done. by destruct Hh.
    + rewrite lookup_empty in Hh. by destruct Hh.
  - left. unfold loadEnd. destruct result as [sheetState|err].
    + destruct (notRunning sheetState); [|done].
      unfold stopPolling. by destruct (timerRef (setState (Some sheetState) w)).
    + unfold stopPolling. by destruct (timerRef (setError (Some err) w)).
Qed.

(** X18.  A completion never starts polling: in any state of the hook,
    after [load] ends the flag is on only if it was on, the ref is the same
    or empty, no timer is added and no handle is used.  A response that
    arrives after [stopPolling] leaves the controller Idle. *)
Theorem loadEnd_never_starts (w : Controller) (result : outcome SheetState) :
  let w' := loadEnd result w in
  (polling w' = true -> polling w = true)
  /\ (timerRef w' = timerRef w \/ timerRef w' = None)
  /\ intervals w' ⊆ intervals w
  /\ nextHandle w' = nextHandle w
  /\ fetches w' = fetches w
  /\ polling (loadEnd result (stopPolling w)) = false.
Proof.
  simpl. unfold loadEnd.
  assert (forall v, (polling (stopPolling v) = true -> polling v = true)
                    /\ (timerRef (stopPolling v) = timerRef v \/ timerRef (stopPolling v) = None)
                    /\ intervals (stopPolling v) ⊆ intervals v
                    /\ nextHandle (stopPolling v) = nextHandle v
                    /\ fetches (stopPolling v) = fetches v) as Hstop.
  { intros v. unfold stopPolling. destruct (timerRef v) as [h|] eqn:E; simpl.
    - split; [done|]. split; [by right|]. split; [apply delete_subseteq|done].
    - rewrite E. split; [done|]. split; [by left|]. done. }
  assert (forall v, polling (stopPolling v) = false) as Hoff.
  { intros v. unfold stopPolling. by destruct (timerRef v). }
  assert (forall r v, polling v = false ->
            polling match r with
                    | Returned sheetState =>
                        if notRunning sheetState
                        then stopPolling (setState (Some sheetState) v)
                        else setState (Some sheetState) v
                    | Thrown err => stopPolling (setError (Some err) v)
                    end = false) as Hlate.
  { intros [st|err] v Hv; [destruct (notRunning st)|]; by rewrite ?Hoff. }
  split; [|split; [|split; [|split; [|split]]]].
  6: { apply Hlate, Hoff. }
  all: destruct result as [sheetState|err]; [destruct (notRunning sheetState)|];
    try done; cbn [polling timerRef intervals nextHandle fetches setLoading];
    try apply (Hstop (setState (Some sheetState) w));
    try apply (Hstop (setError (Some err) w)); auto.
Qed.

Lemma loadEnd_never_starts_witness :
  polling (loadEnd (Returned {| action := Some (lit "RUN"); time := None; imageUrl := None;
                                answer := None; log := None; logs := [] |})
             (stopPolling (run None [StartPolling]))) = false.
Proof.
  apply (loadEnd_never_starts (run None [StartPolling])).
Defined.

End MorePollingFacts.

(** ** The screen *)

Section PageFacts.
Import SheetClient Polling Page.

Lemma isDigit_not_whiteSpace c : isDigit c = true -> isWhiteSpace c = false.
Proof.
  unfold isDigit, isWhiteSpace. intros [H1 H2]%andb_true_iff. apply N.leb_le in H1, H2.
  repeat match goal with
         | |- context [(?a <=? ?b)%N] => destruct (N.leb_spec a b)
         | |- context [(?a =? ?b)%N] => destruct (N.eqb_spec a b)
         end; simpl; try done; lia.
Qed.

(** [trim] leaves a string of digits as it is. *)
Lemma trim_digits s : Forall (fun c => isDigit c = true) s -> trim s = s.
Proof.
  intros H. unfold trim. rewrite trimStart_id.
  - induction H as [|c s Hc _ IH]; simpl; [done|].
    rewrite IH. destruct s; [by rewrite (isDigit_not_whiteSpace c)|done].
  - destruct H as [|c s Hc _]; simpl; [done|]. by apply isDigit_not_whiteSpace.
Qed.

Lemma digitsOnly_digits value : Forall (fun c => isDigit c = true) (digitsOnly value).
Proof.
  unfold digitsOnly. apply Forall_take, Forall_forall. by intros c [H _]%list_elem_of_filter.
Qed.

Lemma digitsOnly_length value : (length (digitsOnly value) <= 3)%nat.
Proof. unfold digitsOnly. rewrite length_take. lia. Qed.

Lemma filter_digits_id v :
  Forall (fun c => isDigit c = true) v -> filter (fun c => isDigit c = true) v = v.
Proof.
  induction 1 as [|c v Hc _ IH]; [done|].
  by rewrite filter_cons, decide_True, IH by done.
Qed.

(** X19.  What the input keeps of a typed value: its first three digits.
    A code unit that is not a digit is dropped wherever it stands, and of a
    string of digits the first three are kept, in their order.  So the
    result has at most three code units, all digits; a value of at most
    three digits is kept as it is, and filtering twice changes nothing. *)
Theorem digitsOnly_sanitizes (value : jsstring) :
  (length (digitsOnly value) <= 3)%nat
  /\ Forall (fun c => isDigit c = true) (digitsOnly value)
  /\ (Forall (fun c => isDigit c = true) value -> (length value <= 3)%nat ->
      digitsOnly value = value)
  /\ digitsOnly (digitsOnly value) = digitsOnly value
  /\ (forall pre c post,
        value = pre ++ c :: post -> isDigit c = false ->
        digitsOnly value = digitsOnly (pre ++ post))
  /\ (Forall (fun c => isDigit c = true) value -> digitsOnly value = take 3 value)
  /\ (forall d1 d2 d3 rest,
        filter (fun c => isDigit c = true) value = d1 :: d2 :: d3 :: rest ->
        digitsOnly value = [d1; d2; d3]).
Proof.
  assert (forall v, Forall (fun c => isDigit c = true) v -> digitsOnly v = take 3 v) as Htake.
  { intros v Hv. unfold digitsOnly. by rewrite filter_digits_id. }
  assert (forall v, Forall (fun c => isDigit c = true) v -> (length v <= 3)%nat ->
                    digitsOnly v = v) as Hid.
  { intros v Hv Hl. rewrite Htake by done. by apply take_ge. }
  pose proof (digitsOnly_length value) as Hl.
  split; [done|]. split; [apply digitsOnly_digits|]. split; [apply Hid|].
  split; [apply Hid; [apply digitsOnly_digits|done]|].
  split; [|split; [apply Htake|]].
  - intros pre c post -> Hc. unfold digitsOnly.
    rewrite !filter_app, filter_cons, decide_False; [done|]. by rewrite Hc.
  - intros d1 d2 d3 rest Hf. unfold digitsOnly. by rewrite Hf.
Qed.

Lemma digitsOnly_sanitizes_witness :
  digitsOnly (lit "1a2 34-5") = digitsOnly (lit "12 34-5")
  /\ digitsOnly (lit "12345") = lit "123"
  /\ digitsOnly (lit "1a2 34-5") = lit "123".
Proof.
  destruct (digitsOnly_sanitizes (lit "1a2 34-5")) as (_ & _ & _ & _ & Hdrop & _ & Hfirst).
  destruct (digitsOnly_sanitizes (lit "12345")) as (_ & _ & _ & _ & _ & Htake & _).
  split; [|split].
  - apply (Hdrop (lit "1") 97%N (lit "2 34-5")); reflexivity.
  - apply Htake. by repeat constructor.
  - apply (Hfirst 49%N 50%N 51%N (lit "45")). reflexivity.
Defined.

Lemma step_answerOk p e : answerOk p -> answerOk (Page.step p e).
Proof.
  intros Hp. destruct e as [value| |out|result| |out|e].
  2-7: simpl.
  - split; [apply digitsOnly_digits | apply digitsOnly_length].
  - destruct (isSubmitDisabled p); [done|]. unfold handleSubmitBegin.
    by destruct (negb _).
  - destruct out; [|done]. split; [constructor|simpl; lia].
  - done.
  - by destruct (running p).
  - by destruct out.
  - done.
Qed.

Lemma run_answerOk history : answerOk (Page.run history).
Proof.
  unfold Page.run. induction history as [|e history IH] using rev_ind.
  - split; [constructor|simpl; lia].
  - rewrite foldl_app. by apply step_answerOk.
Qed.

Lemma handleSubmitBegin_three_digits p :
  answerOk p ->
  match (handleSubmitBegin p).2 with
  | Some a => length a = 3%nat /\ Forall (fun c => isDigit c = true) a
  | None => True
  end.
Proof.
  intros [Hdig Hlen]. unfold handleSubmitBegin. rewrite (trim_digits _ Hdig).
  destruct (length (answer p) =? 3)%nat eqn:E; simpl; [|done].
  by apply Nat.eqb_eq in E.
Qed.

(** X20.  The page only ever submits three digits: after any history of
    events, every answer that a click on Send passed to [submitAnswer] has
    exactly three code units, all of them digits, and so has the answer
    that a call of [handleSubmit] would pass now. *)
Theorem page_submits_three_digits (history : list Page.event) :
  Forall (fun a => length a = 3%nat /\ Forall (fun c => isDigit c = true) a)
    (submitted mounted history)
  /\ match (handleSubmitBegin (Page.run history)).2 with
     | Some a => length a = 3%nat /\ Forall (fun c => isDigit c = true) a
     | None => True
     end.
Proof.
  split; [|apply handleSubmitBegin_three_digits, run_answerOk].
  assert (answerOk mounted) as H0 by (split; [constructor|simpl; lia]).
  revert H0. generalize mounted. induction history as [|e history IH]; intros p Hp.
  - constructor.
  - cbn [submitted]. apply Forall_app. split; [|by apply IH, step_answerOk].
    destruct e; try constructor.
    destruct (isSubmitDisabled p) eqn:Hd; [constructor|].
    pose proof (handleSubmitBegin_three_digits p Hp) as H.
    destruct (handleSubmitBegin p).2; [|constructor].
    constructor; [exact H|constructor].
Qed.

(** [startsWith] is the test for a prefix. *)
Lemma startsWith_prefix prefix s :
  startsWith prefix s = true <-> exists rest, s = prefix ++ rest.
Proof.
  revert s. induction prefix as [|x prefix IH]; intros s; simpl.
  - split; [by exists s|done].
  - destruct s as [|y s]; [split; [done|by intros [rest ?]]|].
    rewrite andb_true_iff, N.eqb_eq, IH. split.
    + intros [-> [rest ->]]. by exists rest.
    + intros [rest [= -> ->]]. split; [done|by exists rest].
Qed.

(** X21.  The source of the captcha image.  There is no source exactly
    when the image value is missing or empty.  A value that starts with
    http://, https:// or data: is the source as it is, and any other value
    is taken as the base64 text of a PNG and put behind
    data:image/png;base64, .  So a source always starts with one of the
    three prefixes, and is passed as it is when it is read again. *)
Theorem imageSource_displayable (source : option jsstring) :
  (imageSource source = None <-> source = None \/ source = Some [])
  /\ (forall src,
        source = Some src -> src <> [] ->
        ((exists rest, src = lit "http://" ++ rest) \/ (exists rest, src = lit "https://" ++ rest)
         \/ (exists rest, src = lit "data:" ++ rest)) ->
        imageSource source = Some src)
  /\ (forall src,
        source = Some src -> src <> [] ->
        ~ ((exists rest, src = lit "http://" ++ rest) \/ (exists rest, src = lit "https://" ++ rest)
           \/ (exists rest, src = lit "data:" ++ rest)) ->
        imageSource source = Some (lit "data:image/png;base64," ++ src))
  /\ match imageSource source with
     | Some uri =>
         startsWith (lit "http://") uri || startsWith (lit "https://") uri
         || startsWith (lit "data:") uri = true
         /\ imageSource (Some uri) = Some uri
     | None => source = None \/ source = Some []
     end.
Proof.
  assert (forall src,
            startsWith (lit "http://") src || startsWith (lit "https://") src
            || startsWith (lit "data:") src = true
            <-> ((exists rest, src = lit "http://" ++ rest)
                 \/ (exists rest, src = lit "https://" ++ rest)
                 \/ (exists rest, src = lit "data:" ++ rest))) as Hscheme.
  { intros src. rewrite !orb_true_iff, !startsWith_prefix. tauto. }
  destruct source as [[|c src]|].
  - split; [split; [by right|done]|]. split; [by intros ? [= <-]|].
    split; [by intros ? [= <-]|by right].
  - unfold imageSource at 1 2 3 4. cbv beta iota.
    destruct (startsWith (lit "http://") (c :: src) || startsWith (lit "https://") (c :: src)
              || startsWith (lit "data:") (c :: src)) eqn:E.
    + split; [split; [done|by intros [?|?]]|].
      split; [by intros ? [= <-]|].
      split; [intros ? [= <-] _ Hn; by apply Hscheme in E|].
      split; [done|]. unfold imageSource. by rewrite E.
    + split; [split; [done|by intros [?|?]]|].
      split; [intros ? [= <-] _ Hp; apply Hscheme in Hp; congruence|].
      split; [by intros ? [= <-]|].
      split; reflexivity.
  - split; [split; [by left|done]|]. split; [done|]. split; [done|by left].
Qed.

Lemma imageSource_displayable_witness :
  imageSource (Some (lit "iVBORw0KGgo=")) = Some (lit "data:image/png;base64,iVBORw0KGgo=")
  /\ imageSource (Some (lit "https://x/captcha.png")) = Some (lit "https://x/captcha.png").
Proof.
  split.
  - destruct (imageSource_displayable (Some (lit "iVBORw0KGgo="))) as (_ & _ & H & _).
    apply (H (lit "iVBORw0KGgo=")); [reflexivity|discriminate|].
    intros [[rest Hr]|[[rest Hr]|[rest Hr]]]; discriminate.
  - destruct (imageSource_displayable (Some (lit "https://x/captcha.png"))) as (_ & H & _).
    apply (H (lit "https://x/captcha.png")); [reflexivity|discriminate|].
    right. left. by exists (lit "x/captcha.png").
Defined.

Lemma withHook_singleTimer delay f p :
  (singleTimer delay (hook p) -> singleTimer delay (f (hook p))) ->
  singleTimer delay (hook p) -> singleTimer delay (hook (withHook f p)).
Proof. auto. Qed.

Lemma page_singleTimer history : singleTimer 2000%N (hook (Page.run history)).
Proof.
  unfold Page.run. induction history as [|e history IH] using rev_ind; [done|].
  rewrite foldl_app. cbn [foldl]. set (p := foldl Page.step mounted history) in *.
  destruct e as [value| |out|result| |out|e]; simpl.
  - done.
  - destruct (isSubmitDisabled p); [done|]. unfold handleSubmitBegin. by destruct (negb _).
  - by destruct out.
  - by apply loadEnd_singleTimer.
  - by destruct (running p).
  - destruct out; simpl.
    + by apply (startPolling_singleTimer 2000%N).
    + by apply stopPolling_singleTimer.
  - by apply (step_singleTimer (Some 2000%N)).
Qed.

(** X22.  When RUN LOGIN settles, after any history of the page: if the
    write of RUN succeeded the controller polls, one fetch has been started
    and the window has exactly one timer, at 2000 ms; if it failed the
    failure is shown, the controller is Idle and the window has no timer.
    In both cases the button is enabled again. *)
Theorem handleRun_outcome (history : list Page.event) (out : outcome unit) :
  let p := Page.run history in
  let p' := handleRunSettled out p in
  running p' = false
  /\ match out with
     | Returned _ =>
         polling (hook p') = true
         /\ fetches (hook p') = S (fetches (hook p))
         /\ intervals (hook p') = {[nextHandle (hook p) := 2000%N]}
     | Thrown err =>
         feedback p' = Some (Failure err)
         /\ polling (hook p') = false
         /\ intervals (hook p') = ∅
     end.
Proof.
  intros p p'. subst p'. pose proof (page_singleTimer history) as Hs. fold p in Hs.
  destruct (stopPolling_singleTimer _ _ Hs) as [Hstop _].
  split; [done|]. destruct out as [[]|err].
  - assert (nextHandle (stopPolling (hook p)) = nextHandle (hook p)) as Hn.
    { unfold stopPolling. by destruct (timerRef (hook p)). }
    assert (fetches (stopPolling (hook p)) = fetches (hook p)) as Hf.
    { unfold stopPolling. by destruct (timerRef (hook p)). }
    unfold handleRunSettled, withHook. cbn [hook setRunning setFeedback].
    unfold startPolling. revert Hn Hf Hstop. generalize (stopPolling (hook p)).
    intros w1 Hn Hf Hstop. simpl. by rewrite Hn, Hf, Hstop, insert_empty.
  - unfold handleRunSettled, withHook. cbn [hook feedback setRunning setFeedback].
    split; [done|]. split; [|done]. unfold stopPolling. by destruct (timerRef (hook p)).
Qed.



End PageFacts.
